(** * savaki/dynamo: the create-table request builder and the table lifecycle

    A shallow embedding of [create.go] and of the [Table] handle of
    [table.go] (in the sources at hand its code follows the tests of
    [create_test.go]).

    - Go strings are [string]; [int64] capacity units are [Z] (the code only
      stores and copies them, no arithmetic is performed on them).
    - A Go pointer that may be nil ([*key], [*dynamodb.ProvisionedThroughput],
      [*dynamodb.StreamSpecification]) is an [option]; the pointers made by
      [aws.String], [aws.Int64] and [aws.Bool] are never nil and are modelled
      by the value they point to.
    - Slices are lists; [append] is [++] with a singleton.
    - The [seen] map of [merge] (a [map[string]struct{}]) is a [gset string].
    - The option closures mutate a [*tableOptions]; here every option is a
      function from the old [tableOptions] to the new one.
    - The client ([dynamodbiface.DynamoDBAPI]) is an opaque collaborator: its
      two operations are state-passing functions over an arbitrary state. *)

From stdpp Require Import base gmap sets list strings.
From Stdlib Require Import ZArith.

#[local] Set Warnings "-register-all,-clear-no-such-hyp".

Local Open Scope string_scope.
Local Open Scope list_scope.

(** ** The parts of [aws-sdk-go/service/dynamodb] the code uses *)

Module dynamodb.

Definition BillingModeProvisioned : string := "PROVISIONED".
Definition BillingModePayPerRequest : string := "PAY_PER_REQUEST".

Definition KeyTypeHash : string := "HASH".
Definition KeyTypeRange : string := "RANGE".

Definition ScalarAttributeTypeS : string := "S".
Definition ScalarAttributeTypeN : string := "N".
Definition ScalarAttributeTypeB : string := "B".

Definition ProjectionTypeAll : string := "ALL".
Definition ProjectionTypeKeysOnly : string := "KEYS_ONLY".
Definition ProjectionTypeInclude : string := "INCLUDE".

Definition StreamViewTypeKeysOnly : string := "KEYS_ONLY".

Definition ErrCodeResourceInUseException : string := "ResourceInUseException".
Definition ErrCodeResourceNotFoundException : string := "ResourceNotFoundException".

Record AttributeDefinition := {
  AttributeName : string;
  AttributeType : string;
}.

Record KeySchemaElement := {
  kse_AttributeName : string;
  KeyType : string;
}.

Record ProvisionedThroughput := {
  ReadCapacityUnits : Z;
  WriteCapacityUnits : Z;
}.

Record Projection := {
  NonKeyAttributes : list string;
  ProjectionType : string;
}.

Record StreamSpecification := {
  StreamEnabled : bool;
  StreamViewType : string;
}.

Record GlobalSecondaryIndex := {
  gsi_IndexName : string;
  gsi_KeySchema : list KeySchemaElement;
  gsi_Projection : Projection;
  gsi_ProvisionedThroughput : option ProvisionedThroughput;
}.

(** The SDK's [LocalSecondaryIndex] has exactly these three fields: there
    is no throughput field to fill. *)
Record LocalSecondaryIndex := {
  lsi_IndexName : string;
  lsi_KeySchema : list KeySchemaElement;
  lsi_Projection : Projection;
}.

Record CreateTableInput := {
  AttributeDefinitions : list AttributeDefinition;
  BillingMode : string;
  GlobalSecondaryIndexes : list GlobalSecondaryIndex;
  KeySchema : list KeySchemaElement;
  LocalSecondaryIndexes : list LocalSecondaryIndex;
  ProvisionedThroughput_ : option ProvisionedThroughput;
  StreamSpecification_ : option StreamSpecification;
  TableName : string;
}.

Record DeleteTableInput := {
  del_TableName : string;
}.

End dynamodb.

Import dynamodb.

(** ** [create.go]: constants and the configuration *)

Definition DefaultBillingMode : string := BillingModeProvisioned.
Definition DefaultReadCapacity : Z := 3%Z.
Definition DefaultWriteCapacity : Z := 3%Z.

Record key := {
  attributeName : string;
  attributeType : string;
}.

Record keyOptions := {
  hashKey : option key;
  rangeKey : option key;
}.

Record attribute := {
  Name : string;
  Type_ : string;
}.

Record tableOptions := {
  attributes : list attribute;
  keys : keyOptions;
  billingMode : string;
  globalIndexes : list (string -> GlobalSecondaryIndex * list attribute);
  localIndexes : list (string -> LocalSecondaryIndex * list attribute);
  projectionType : string;
  readCapacityUnits : Z;
  streamViewType : string;
  writeCapacityUnits : Z;
}.

(** Field assignments [o.f = v] on a [*tableOptions]. *)

Definition set_attributes (v : list attribute) (o : tableOptions) : tableOptions :=
  {| attributes := v; keys := keys o; billingMode := billingMode o;
     globalIndexes := globalIndexes o; localIndexes := localIndexes o;
     projectionType := projectionType o; readCapacityUnits := readCapacityUnits o;
     streamViewType := streamViewType o; writeCapacityUnits := writeCapacityUnits o |}.

Definition set_hashKey (v : option key) (o : tableOptions) : tableOptions :=
  {| attributes := attributes o;
     keys := {| hashKey := v; rangeKey := rangeKey (keys o) |};
     billingMode := billingMode o;
     globalIndexes := globalIndexes o; localIndexes := localIndexes o;
     projectionType := projectionType o; readCapacityUnits := readCapacityUnits o;
     streamViewType := streamViewType o; writeCapacityUnits := writeCapacityUnits o |}.

Definition set_rangeKey (v : option key) (o : tableOptions) : tableOptions :=
  {| attributes := attributes o;
     keys := {| hashKey := hashKey (keys o); rangeKey := v |};
     billingMode := billingMode o;
     globalIndexes := globalIndexes o; localIndexes := localIndexes o;
     projectionType := projectionType o; readCapacityUnits := readCapacityUnits o;
     streamViewType := streamViewType o; writeCapacityUnits := writeCapacityUnits o |}.

Definition set_billingMode (v : string) (o : tableOptions) : tableOptions :=
  {| attributes := attributes o; keys := keys o; billingMode := v;
     globalIndexes := globalIndexes o; localIndexes := localIndexes o;
     projectionType := projectionType o; readCapacityUnits := readCapacityUnits o;
     streamViewType := streamViewType o; writeCapacityUnits := writeCapacityUnits o |}.

Definition set_globalIndexes
    (v : list (string -> GlobalSecondaryIndex * list attribute))
    (o : tableOptions) : tableOptions :=
  {| attributes := attributes o; keys := keys o; billingMode := billingMode o;
     globalIndexes := v; localIndexes := localIndexes o;
     projectionType := projectionType o; readCapacityUnits := readCapacityUnits o;
     streamViewType := streamViewType o; writeCapacityUnits := writeCapacityUnits o |}.

Definition set_localIndexes
    (v : list (string -> LocalSecondaryIndex * list attribute))
    (o : tableOptions) : tableOptions :=
  {| attributes := attributes o; keys := keys o; billingMode := billingMode o;
     globalIndexes := globalIndexes o; localIndexes := v;
     projectionType := projectionType o; readCapacityUnits := readCapacityUnits o;
     streamViewType := streamViewType o; writeCapacityUnits := writeCapacityUnits o |}.

Definition set_readCapacityUnits (v : Z) (o : tableOptions) : tableOptions :=
  {| attributes := attributes o; keys := keys o; billingMode := billingMode o;
     globalIndexes := globalIndexes o; localIndexes := localIndexes o;
     projectionType := projectionType o; readCapacityUnits := v;
     streamViewType := streamViewType o; writeCapacityUnits := writeCapacityUnits o |}.

Definition set_streamViewType (v : string) (o : tableOptions) : tableOptions :=
  {| attributes := attributes o; keys := keys o; billingMode := billingMode o;
     globalIndexes := globalIndexes o; localIndexes := localIndexes o;
     projectionType := projectionType o; readCapacityUnits := readCapacityUnits o;
     streamViewType := v; writeCapacityUnits := writeCapacityUnits o |}.

Definition set_writeCapacityUnits (v : Z) (o : tableOptions) : tableOptions :=
  {| attributes := attributes o; keys := keys o; billingMode := billingMode o;
     globalIndexes := globalIndexes o; localIndexes := localIndexes o;
     projectionType := projectionType o; readCapacityUnits := readCapacityUnits o;
     streamViewType := streamViewType o; writeCapacityUnits := v |}.

(** The literal [tableOptions{billingMode: ..., readCapacityUnits: ...,
    writeCapacityUnits: ...}] of [makeTableOptions]; every other field has
    its zero value. *)
Definition initialOptions : tableOptions :=
  {| attributes := []; keys := {| hashKey := None; rangeKey := None |};
     billingMode := DefaultBillingMode;
     globalIndexes := []; localIndexes := [];
     projectionType := ""; readCapacityUnits := DefaultReadCapacity;
     streamViewType := ""; writeCapacityUnits := DefaultWriteCapacity |}.

(** ** Rendering helpers *)

Definition makeAttributeNames (attributes : list attribute) : list string :=
  fold_left (fun names item => names ++ [Name item]) attributes [].

Definition makeAttributeDefinitions (options : tableOptions) : list AttributeDefinition :=
  let items := [] in
  let items :=
    match hashKey (keys options) with
    | Some k => items ++ [{| AttributeName := attributeName k;
                             AttributeType := attributeType k |}]
    | None => items
    end in
  let items :=
    match rangeKey (keys options) with
    | Some k => items ++ [{| AttributeName := attributeName k;
                             AttributeType := attributeType k |}]
    | None => items
    end in
  items.

Definition makeKeySchemaElements (options : tableOptions) : list KeySchemaElement :=
  let items := [] in
  let items :=
    match hashKey (keys options) with
    | Some k => items ++ [{| kse_AttributeName := attributeName k;
                             KeyType := KeyTypeHash |}]
    | None => items
    end in
  let items :=
    match rangeKey (keys options) with
    | Some k => items ++ [{| kse_AttributeName := attributeName k;
                             KeyType := KeyTypeRange |}]
    | None => items
    end in
  items.

Definition makeProvisionedThroughput (options : tableOptions) : option ProvisionedThroughput :=
  if decide (billingMode options = BillingModePayPerRequest) then None
  else Some {| ReadCapacityUnits := readCapacityUnits options;
               WriteCapacityUnits := writeCapacityUnits options |}.

(** ** Options

    Every option constructor of [create.go] returns a [tableIndexFunc], a
    closure over its arguments; [tableOptions] is unexported, so these nine
    constructors are the only way to obtain an option value.  The closures
    are represented by their constructor and arguments, and [call] runs the
    closure body on the configuration. *)

Inductive tableIndexFunc :=
| WithAttr (attributeName attributeType : string)
| WithBillingMode (mode : string)
| WithGlobalSecondaryIndex (indexName projectionType : string) (opts : list tableIndexFunc)
| WithHashKey (attributeName attributeType : string)
| WithLocalSecondaryIndex (indexName projectionType : string) (opts : list tableIndexFunc)
| WithRangeKey (attributeName attributeType : string)
| WithReadCapacity (rcap : Z)
| WithStreamSpecification (streamViewType : string)
| WithWriteCapacity (wcap : Z).

(** The body of the closure appended by [WithGlobalSecondaryIndex], given
    the value [makeTableOptions(opts)] it computes first. *)
Definition globalIndexBody (indexName projectionType : string)
    (options : tableOptions) (billingMode : string)
    : GlobalSecondaryIndex * list attribute :=
  let options := set_billingMode billingMode options in
  ({| gsi_IndexName := indexName;
      gsi_KeySchema := makeKeySchemaElements options;
      gsi_Projection :=
        {| NonKeyAttributes := makeAttributeNames (attributes options);
           ProjectionType := projectionType |};
      gsi_ProvisionedThroughput := makeProvisionedThroughput options |},
   attributes options).

(** The body of the closure appended by [WithLocalSecondaryIndex]. *)
Definition localIndexBody (indexName projectionType : string)
    (options : tableOptions) (billingMode : string)
    : LocalSecondaryIndex * list attribute :=
  let options := set_billingMode billingMode options in
  ({| lsi_IndexName := indexName;
      lsi_KeySchema := makeKeySchemaElements options;
      lsi_Projection :=
        {| NonKeyAttributes := makeAttributeNames (attributes options);
           ProjectionType := projectionType |} |},
   attributes options).

(** [fn(o)]: the option closure applied to the configuration.  The two index
    options run [makeTableOptions] on their own option list (the [fold_left]
    over [initialOptions]; see [makeTableOptions_index] below). *)
Fixpoint call (fn : tableIndexFunc) (o : tableOptions) {struct fn} : tableOptions :=
  match fn with
  | WithAttr attributeName attributeType =>
      set_attributes
        (attributes o ++ [{| Name := attributeName; Type_ := attributeType |}]) o
  | WithBillingMode mode =>
      set_billingMode mode o
  | WithGlobalSecondaryIndex indexName projectionType opts =>
      set_globalIndexes
        (globalIndexes o ++
           [fun billingMode =>
              globalIndexBody indexName projectionType
                (fold_left (fun options opt => call opt options) opts initialOptions)
                billingMode]) o
  | WithHashKey attributeName attributeType =>
      set_hashKey
        (Some {| attributeName := attributeName; attributeType := attributeType |}) o
  | WithLocalSecondaryIndex indexName projectionType opts =>
      set_localIndexes
        (localIndexes o ++
           [fun billingMode =>
              localIndexBody indexName projectionType
                (fold_left (fun options opt => call opt options) opts initialOptions)
                billingMode]) o
  | WithRangeKey attributeName attributeType =>
      set_rangeKey
        (Some {| attributeName := attributeName; attributeType := attributeType |}) o
  | WithReadCapacity rcap =>
      set_readCapacityUnits rcap o
  | WithStreamSpecification streamViewType =>
      set_streamViewType streamViewType o
  | WithWriteCapacity wcap =>
      set_writeCapacityUnits wcap o
  end.

(** Both interface methods of [tableIndexFunc] call the closure. *)
Definition ApplyTable (fn : tableIndexFunc) (o : tableOptions) : tableOptions := call fn o.
Definition ApplyIndex (fn : tableIndexFunc) (o : tableOptions) : tableOptions := call fn o.

(** The argument of [makeTableOptions] is an [interface{}]; the type switch
    tells a [[]IndexOption] from a [[]TableOption], and applies nothing to a
    value of any other type. *)
Inductive optionSlice :=
| IndexOptions (v : list tableIndexFunc)
| TableOptions (v : list tableIndexFunc)
| OtherValue.

Definition makeTableOptions (opts : optionSlice) : tableOptions :=
  let options := initialOptions in
  match opts with
  | IndexOptions v => fold_left (fun options opt => ApplyIndex opt options) v options
  | TableOptions v => fold_left (fun options opt => ApplyTable opt options) v options
  | OtherValue => options
  end.

(** The closures as [WithGlobalSecondaryIndex] and [WithLocalSecondaryIndex]
    write them. *)
Definition globalIndexFn (indexName projectionType : string) (opts : list tableIndexFunc)
    : string -> GlobalSecondaryIndex * list attribute :=
  fun billingMode =>
    globalIndexBody indexName projectionType (makeTableOptions (IndexOptions opts)) billingMode.

Definition localIndexFn (indexName projectionType : string) (opts : list tableIndexFunc)
    : string -> LocalSecondaryIndex * list attribute :=
  fun billingMode =>
    localIndexBody indexName projectionType (makeTableOptions (IndexOptions opts)) billingMode.

(** The static Go type each constructor returns. *)
Inductive optionInterface := TableOption | IndexOption | TableIndexOption.

Definition returns (fn : tableIndexFunc) : optionInterface :=
  match fn with
  | WithAttr _ _ => IndexOption
  | WithBillingMode _ => TableOption
  | WithGlobalSecondaryIndex _ _ _ => TableOption
  | WithHashKey _ _ => TableIndexOption
  | WithLocalSecondaryIndex _ _ _ => TableOption
  | WithRangeKey _ _ => TableOption
  | WithReadCapacity _ => TableIndexOption
  | WithStreamSpecification _ => TableOption
  | WithWriteCapacity _ => TableIndexOption
  end.

Definition isIndexOption (fn : tableIndexFunc) : bool :=
  match returns fn with TableOption => false | _ => true end.

(** An option that Go accepts in a table option list without a type
    assertion: it is returned as a [TableOption] (or [TableIndexOption]),
    and when it declares an index, the option list of the index holds
    [IndexOption]s (or [TableIndexOption]s) only. *)
Definition isTableOption (fn : tableIndexFunc) : bool :=
  match fn with
  | WithAttr _ _ => false
  | WithGlobalSecondaryIndex _ _ opts => forallb isIndexOption opts
  | WithLocalSecondaryIndex _ _ opts => forallb isIndexOption opts
  | _ => true
  end.

(** ** Rendering the request *)

(** [merge]: the two loops thread the pair [(seen, merged)]. *)
Definition merge (definitions : list AttributeDefinition) (attributes : list attribute)
    : list AttributeDefinition :=
  let st : gset string * list AttributeDefinition := (∅, []) in
  let st :=
    fold_left
      (fun '(seen, merged) item => ({[AttributeName item]} ∪ seen, merged ++ [item]))
      definitions st in
  let st :=
    fold_left
      (fun '(seen, merged) attr =>
         if decide (Name attr ∈ seen) then (seen, merged)
         else ({[Name attr]} ∪ seen,
               merged ++ [{| AttributeName := Name attr; AttributeType := Type_ attr |}]))
      attributes st in
  snd st.

Definition set_StreamSpecification (v : option StreamSpecification) (input : CreateTableInput)
    : CreateTableInput :=
  {| AttributeDefinitions := AttributeDefinitions input;
     BillingMode := BillingMode input;
     GlobalSecondaryIndexes := GlobalSecondaryIndexes input;
     KeySchema := KeySchema input;
     LocalSecondaryIndexes := LocalSecondaryIndexes input;
     ProvisionedThroughput_ := ProvisionedThroughput_ input;
     StreamSpecification_ := v;
     TableName := TableName input |}.

(** One iteration of the loop over [options.globalIndexes]. *)
Definition addGlobalIndex (billingMode : string) (input : CreateTableInput)
    (fn : string -> GlobalSecondaryIndex * list attribute) : CreateTableInput :=
  let '(gsi, attributes) := fn billingMode in
  {| AttributeDefinitions := merge (AttributeDefinitions input) attributes;
     BillingMode := BillingMode input;
     GlobalSecondaryIndexes := GlobalSecondaryIndexes input ++ [gsi];
     KeySchema := KeySchema input;
     LocalSecondaryIndexes := LocalSecondaryIndexes input;
     ProvisionedThroughput_ := ProvisionedThroughput_ input;
     StreamSpecification_ := StreamSpecification_ input;
     TableName := TableName input |}.

(** One iteration of the loop over [options.localIndexes]. *)
Definition addLocalIndex (billingMode : string) (input : CreateTableInput)
    (fn : string -> LocalSecondaryIndex * list attribute) : CreateTableInput :=
  let '(lsi, attributes) := fn billingMode in
  {| AttributeDefinitions := merge (AttributeDefinitions input) attributes;
     BillingMode := BillingMode input;
     GlobalSecondaryIndexes := GlobalSecondaryIndexes input;
     KeySchema := KeySchema input;
     LocalSecondaryIndexes := LocalSecondaryIndexes input ++ [lsi];
     ProvisionedThroughput_ := ProvisionedThroughput_ input;
     StreamSpecification_ := StreamSpecification_ input;
     TableName := TableName input |}.

Definition makeCreateTableInput (tableName : string) (opts : list tableIndexFunc)
    : CreateTableInput :=
  let options := makeTableOptions (TableOptions opts) in
  let input :=
    {| AttributeDefinitions := makeAttributeDefinitions options;
       BillingMode := billingMode options;
       GlobalSecondaryIndexes := [];
       KeySchema := makeKeySchemaElements options;
       LocalSecondaryIndexes := [];
       ProvisionedThroughput_ := makeProvisionedThroughput options;
       StreamSpecification_ := None;
       TableName := tableName |} in
  let input :=
    if decide (streamViewType options = "") then input
    else set_StreamSpecification
           (Some {| StreamEnabled := true; StreamViewType := streamViewType options |})
           input in
  let input := fold_left (addGlobalIndex (billingMode options)) (globalIndexes options) input in
  let input := fold_left (addLocalIndex (billingMode options)) (localIndexes options) input in
  input.

(** ** Errors

    A Go [error] is nil ([None]) or a value.  The code only asks whether the
    value implements [awserr.Error] and, if so, for its [Code()]; a value is
    therefore either one that implements [awserr.Error], with its code and
    message, or any other error. *)

Inductive error :=
| awserrError (code message : string)
| otherError (message : string).

(** [awserr.New(code, message, nil)]. *)
Definition awserrNew (code message : string) : error := awserrError code message.

(** [v, ok := err.(awserr.Error)] followed by [v.Code()]: the code of the
    error when the type assertion succeeds. *)
Definition Code (err : error) : option string :=
  match err with
  | awserrError c _ => Some c
  | otherError _ => None
  end.

(** [v, ok := err.(awserr.Error); ok && v.Code() == code]. *)
Definition isAwserrWithCode (err : error) (code : string) : bool :=
  match Code err with
  | Some c => bool_decide (c = code)
  | None => false
  end.

(** ** [table.go]: the lifecycle handle

    [Ctx] is [context.Context]; [St] is whatever state the collaborator
    keeps between calls.  The outputs of the two client calls are discarded
    by the code ([_, err := ...]) and are left out. *)

Section Lifecycle.

Context {Ctx St : Type}.

Record DynamoDBAPI := {
  CreateTableWithContext : Ctx -> CreateTableInput -> St -> option error * St;
  DeleteTableWithContext : Ctx -> DeleteTableInput -> St -> option error * St;
}.

Record Table := {
  api : DynamoDBAPI;
  tableName : string;
}.

Definition New (api : DynamoDBAPI) (tableName : string) : Table :=
  {| api := api; tableName := tableName |}.

Definition CreateTableIfNotExists (t : Table) (ctx : Ctx)
    (hashKeyName hashKeyType : string) (opts : list tableIndexFunc)
    (s : St) : option error * St :=
  let mergedOpts : list tableIndexFunc := [] in
  let mergedOpts := mergedOpts ++ [WithHashKey hashKeyName hashKeyType] in
  let mergedOpts := mergedOpts ++ opts in
  let input := makeCreateTableInput (tableName t) mergedOpts in
  let '(err, s) := CreateTableWithContext (api t) ctx input s in
  match err with
  | Some e =>
      if isAwserrWithCode e ErrCodeResourceInUseException then (None, s)
      else (Some e, s)
  | None => (None, s)
  end.

Definition DeleteTableIfExists (t : Table) (ctx : Ctx) (s : St) : option error * St :=
  let input := {| del_TableName := tableName t |} in
  let '(err, s) := DeleteTableWithContext (api t) ctx input s in
  match err with
  | Some e =>
      if isAwserrWithCode e ErrCodeResourceNotFoundException then (None, s)
      else (Some e, s)
  | None => (None, s)
  end.

(** [Mock] of [create_test.go]: both calls return the stored error and
    change nothing. *)
Definition Mock (err : option error) : DynamoDBAPI :=
  {| CreateTableWithContext := fun _ _ s => (err, s);
     DeleteTableWithContext := fun _ _ s => (err, s) |}.

End Lifecycle.

Arguments DynamoDBAPI : clear implicits.
Arguments Table : clear implicits.

(** A collaborator for worked examples: it answers from a script, one reply
    per call, records every request it receives, and succeeds once the
    script is exhausted. *)
Inductive request :=
| CreateRequest (input : CreateTableInput)
| DeleteRequest (input : DeleteTableInput).

Record scripted := {
  replies : list (option error);
  received : list request;
}.

Definition scriptedReply (r : request) (s : scripted) : option error * scripted :=
  match replies s with
  | [] => (None, {| replies := []; received := received s ++ [r] |})
  | e :: rest => (e, {| replies := rest; received := received s ++ [r] |})
  end.

Definition Scripted : DynamoDBAPI unit scripted :=
  {| CreateTableWithContext := fun _ input s => scriptedReply (CreateRequest input) s;
     DeleteTableWithContext := fun _ input s => scriptedReply (DeleteRequest input) s |}.

(** ** Reading an option list

    What a sequence of options declares, read off the sequence itself: the
    last option of a kind, and the options of a kind in order. *)

Definition asAttr (fn : tableIndexFunc) : option attribute :=
  match fn with
  | WithAttr n t => Some {| Name := n; Type_ := t |}
  | _ => None
  end.

Definition asBillingMode (fn : tableIndexFunc) : option string :=
  match fn with WithBillingMode m => Some m | _ => None end.

Definition asHashKey (fn : tableIndexFunc) : option key :=
  match fn with
  | WithHashKey n t => Some {| attributeName := n; attributeType := t |}
  | _ => None
  end.

Definition asRangeKey (fn : tableIndexFunc) : option key :=
  match fn with
  | WithRangeKey n t => Some {| attributeName := n; attributeType := t |}
  | _ => None
  end.

Definition asReadCapacity (fn : tableIndexFunc) : option Z :=
  match fn with WithReadCapacity c => Some c | _ => None end.

Definition asWriteCapacity (fn : tableIndexFunc) : option Z :=
  match fn with WithWriteCapacity c => Some c | _ => None end.

Definition asStreamViewType (fn : tableIndexFunc) : option string :=
  match fn with WithStreamSpecification v => Some v | _ => None end.

(** An index declaration: name, projection type and the index's own
    option list. *)
Definition indexDecl : Type := string * string * list tableIndexFunc.

Definition asGlobalIndex (fn : tableIndexFunc) : option indexDecl :=
  match fn with
  | WithGlobalSecondaryIndex n p opts => Some (n, p, opts)
  | _ => None
  end.

Definition asLocalIndex (fn : tableIndexFunc) : option indexDecl :=
  match fn with
  | WithLocalSecondaryIndex n p opts => Some (n, p, opts)
  | _ => None
  end.

(** The last option of the kind [sel] selects, if there is one. *)
Definition lastOf {A} (sel : tableIndexFunc -> option A) (opts : list tableIndexFunc)
    : option A :=
  last (omap sel opts).

Definition isCapacity (fn : tableIndexFunc) : bool :=
  match fn with
  | WithReadCapacity _ | WithWriteCapacity _ => true
  | _ => false
  end.

(** The option list without its (top-level) capacity options. *)
Definition withoutCapacity (opts : list tableIndexFunc) : list tableIndexFunc :=
  List.filter (fun fn => negb (isCapacity fn)) opts.

Definition toDefinition (a : attribute) : AttributeDefinition :=
  {| AttributeName := Name a; AttributeType := Type_ a |}.

(** The attributes an index contributes to the request: the ones its option
    list declares with [WithAttr]. *)
Definition declaredAttrs (d : indexDecl) : list attribute := omap asAttr d.2.

(** The candidates for the attribute-definitions list in the order the
    rendering meets them: the table's resolved hash key, its resolved range
    key, the attributes of every global index, then those of every local
    index. *)
Definition tableKeyDefinitions (opts : list tableIndexFunc) : list AttributeDefinition :=
  (toDefinition <$>
     ((fun k => {| Name := attributeName k; Type_ := attributeType k |}) <$>
        (option_list (lastOf asHashKey opts) ++ option_list (lastOf asRangeKey opts)))).

Definition indexAttributes (opts : list tableIndexFunc) : list attribute :=
  concat (declaredAttrs <$> omap asGlobalIndex opts) ++
  concat (declaredAttrs <$> omap asLocalIndex opts).

Definition candidates (opts : list tableIndexFunc) : list AttributeDefinition :=
  tableKeyDefinitions opts ++ (toDefinition <$> indexAttributes opts).

(** De-duplication by name, first occurrence wins, as the specification
    words it: an entry is kept unless an earlier entry has its name. *)
Fixpoint dedupByName (seen : gset string) (l : list AttributeDefinition)
    : list AttributeDefinition :=
  match l with
  | [] => []
  | d :: l =>
      if decide (AttributeName d ∈ seen) then dedupByName seen l
      else d :: dedupByName ({[AttributeName d]} ∪ seen) l
  end.

(** The type recorded for [name] by the first entry of that name. *)
Definition firstType (name : string) (l : list AttributeDefinition) : option string :=
  AttributeType <$> List.find (fun d => bool_decide (AttributeName d = name)) l.

(** The set of names of a list of definitions. *)
Definition namesOf (l : list AttributeDefinition) : gset string :=
  list_to_set (AttributeName <$> l).

(** The loop of [makeTableOptions], started from any configuration. *)
Definition applyAll (opts : list tableIndexFunc) (o : tableOptions) : tableOptions :=
  fold_left (fun options opt => call opt options) opts o.

(** The table's resolved hash key and range key, when both are declared,
    have different names. *)
Definition distinctTableKeys (opts : list tableIndexFunc) : Prop :=
  match lastOf asHashKey opts, lastOf asRangeKey opts with
  | Some h, Some r => attributeName h ≠ attributeName r
  | _, _ => True
  end.

(** The keys an option list resolves to, as key-schema entries. *)
Definition keySchemaOf (opts : list tableIndexFunc) : list KeySchemaElement :=
  ((fun k => {| kse_AttributeName := attributeName k; KeyType := KeyTypeHash |}) <$>
     option_list (lastOf asHashKey opts)) ++
  ((fun k => {| kse_AttributeName := attributeName k; KeyType := KeyTypeRange |}) <$>
     option_list (lastOf asRangeKey opts)).

(** The capacity an option list resolves to. *)
Definition capacityOf (opts : list tableIndexFunc) : ProvisionedThroughput :=
  {| ReadCapacityUnits := default DefaultReadCapacity (lastOf asReadCapacity opts);
     WriteCapacityUnits := default DefaultWriteCapacity (lastOf asWriteCapacity opts) |}.

(** The attribute-definitions list under the reading that an index
    contributes every attribute it references, the attributes of its own key
    schema included: the keys of the index come first, then its declared
    attributes. *)
Definition referencedAttrs (d : indexDecl) : list attribute :=
  ((fun k => {| Name := attributeName k; Type_ := attributeType k |}) <$>
     (option_list (lastOf asHashKey d.2) ++ option_list (lastOf asRangeKey d.2))) ++
  declaredAttrs d.

Definition attributeDefinitionsWithIndexKeys (opts : list tableIndexFunc)
    : list AttributeDefinition :=
  dedupByName ∅
    (tableKeyDefinitions opts ++
       (toDefinition <$>
          (concat (referencedAttrs <$> omap asGlobalIndex opts) ++
           concat (referencedAttrs <$> omap asLocalIndex opts)))).

(** What the caller sees of a client reply when the error code [code] is
    taken for success: the error is dropped when it is an [awserr.Error] with
    that code and passed on as it is otherwise; the collaborator's state is
    the one the reply left.  Used to state the properties of the lifecycle
    calls. *)
Definition swallow {St} (code : string) (reply : option error * St) : option error * St :=
  match reply.1 with
  | Some e => if isAwserrWithCode e code then (None, reply.2) else (Some e, reply.2)
  | None => (None, reply.2)
  end.

(** ** The request read off the option list

    The rendering in two explicit phases: the option list is read first
    (last option of each scalar kind, index declarations in order), then
    every index declaration is rendered against the table's resolved billing
    mode.  [makeCreateTableInput] is shown below to compute exactly this. *)

Definition resolvedBillingMode (opts : list tableIndexFunc) : string :=
  default DefaultBillingMode (lastOf asBillingMode opts).

Definition renderThroughput (billingMode : string) (opts : list tableIndexFunc)
    : option ProvisionedThroughput :=
  if decide (billingMode = BillingModePayPerRequest) then None else Some (capacityOf opts).

Definition renderGlobalIndex (billingMode : string) (d : indexDecl) : GlobalSecondaryIndex :=
  {| gsi_IndexName := d.1.1;
     gsi_KeySchema := keySchemaOf d.2;
     gsi_Projection :=
       {| NonKeyAttributes := Name <$> declaredAttrs d; ProjectionType := d.1.2 |};
     gsi_ProvisionedThroughput := renderThroughput billingMode d.2 |}.

Definition renderLocalIndex (d : indexDecl) : LocalSecondaryIndex :=
  {| lsi_IndexName := d.1.1;
     lsi_KeySchema := keySchemaOf d.2;
     lsi_Projection :=
       {| NonKeyAttributes := Name <$> declaredAttrs d; ProjectionType := d.1.2 |} |}.

Definition renderStream (opts : list tableIndexFunc) : option StreamSpecification :=
  match lastOf asStreamViewType opts with
  | Some v =>
      if decide (v = "") then None
      else Some {| StreamEnabled := true; StreamViewType := v |}
  | None => None
  end.

Definition renderRequest (tableName : string) (opts : list tableIndexFunc)
    : CreateTableInput :=
  {| AttributeDefinitions :=
       tableKeyDefinitions opts ++
       dedupByName (namesOf (tableKeyDefinitions opts))
         (toDefinition <$> indexAttributes opts);
     BillingMode := resolvedBillingMode opts;
     GlobalSecondaryIndexes :=
       renderGlobalIndex (resolvedBillingMode opts) <$> omap asGlobalIndex opts;
     KeySchema := keySchemaOf opts;
     LocalSecondaryIndexes := renderLocalIndex <$> omap asLocalIndex opts;
     ProvisionedThroughput_ := renderThroughput (resolvedBillingMode opts) opts;
     StreamSpecification_ := renderStream opts;
     TableName := tableName |}.

(** Everything the rendering reads from a table option list. *)
Record tableReadings := {
  readBillingMode : option string;
  readHashKey : option key;
  readRangeKey : option key;
  readReadCapacity : option Z;
  readWriteCapacity : option Z;
  readStreamViewType : option string;
  readGlobalIndexes : list indexDecl;
  readLocalIndexes : list indexDecl;
}.

Definition readings (opts : list tableIndexFunc) : tableReadings :=
  {| readBillingMode := lastOf asBillingMode opts;
     readHashKey := lastOf asHashKey opts;
     readRangeKey := lastOf asRangeKey opts;
     readReadCapacity := lastOf asReadCapacity opts;
     readWriteCapacity := lastOf asWriteCapacity opts;
     readStreamViewType := lastOf asStreamViewType opts;
     readGlobalIndexes := omap asGlobalIndex opts;
     readLocalIndexes := omap asLocalIndex opts |}.

(** Everything the rendering of an index reads from the index's own option
    list. *)
Record indexReadings := {
  indexHashKey : option key;
  indexRangeKey : option key;
  indexReadCapacity : option Z;
  indexWriteCapacity : option Z;
  indexAttrs : list attribute;
}.

Definition readIndex (opts : list tableIndexFunc) : indexReadings :=
  {| indexHashKey := lastOf asHashKey opts;
     indexRangeKey := lastOf asRangeKey opts;
     indexReadCapacity := lastOf asReadCapacity opts;
     indexWriteCapacity := lastOf asWriteCapacity opts;
     indexAttrs := omap asAttr opts |}.

(** * Properties *)

(** ** The option loop *)

Lemma makeTableOptions_table v :
  makeTableOptions (TableOptions v) = applyAll v initialOptions.
Proof. reflexivity. Qed.

Lemma makeTableOptions_index v :
  makeTableOptions (IndexOptions v) = applyAll v initialOptions.
Proof. reflexivity. Qed.

Lemma call_WithGlobalSecondaryIndex n p opts o :
  call (WithGlobalSecondaryIndex n p opts) o =
  set_globalIndexes (globalIndexes o ++ [globalIndexFn n p opts]) o.
Proof. reflexivity. Qed.

Lemma call_WithLocalSecondaryIndex n p opts o :
  call (WithLocalSecondaryIndex n p opts) o =
  set_localIndexes (localIndexes o ++ [localIndexFn n p opts]) o.
Proof. reflexivity. Qed.

Lemma applyAll_cons fn opts o : applyAll (fn :: opts) o = applyAll opts (call fn o).
Proof. reflexivity. Qed.

Lemma applyAll_app opts1 opts2 o :
  applyAll (opts1 ++ opts2) o = applyAll opts2 (applyAll opts1 o).
Proof. unfold applyAll. apply fold_left_app. Qed.

Lemma lastOf_cons {A} (sel : tableIndexFunc -> option A) fn opts :
  lastOf sel (fn :: opts) =
  match lastOf sel opts with
  | Some x => Some x
  | None => sel fn
  end.
Proof.
  unfold lastOf.
  change (omap sel (fn :: opts))
    with (match sel fn with Some y => y :: omap sel opts | None => omap sel opts end).
  destruct (sel fn) as [a|].
  - apply last_cons.
  - destruct (last (omap sel opts)); reflexivity.
Qed.

Lemma lastOf_nil {A} (sel : tableIndexFunc -> option A) : lastOf sel [] = None.
Proof. reflexivity. Qed.

(** A scalar field after the loop: the value of the last option that sets
    it, else the value before the loop. *)
Ltac scalar_field :=
  let opts := fresh "opts" in
  let fn := fresh "fn" in
  let IH := fresh "IH" in
  intros opts; induction opts as [|fn opts IH]; intros o;
  [ reflexivity
  | rewrite applyAll_cons, IH, lastOf_cons;
    destruct (lastOf _ opts); [reflexivity | destruct fn; reflexivity] ].

Lemma applyAll_billingMode : forall opts o,
  billingMode (applyAll opts o) = default (billingMode o) (lastOf asBillingMode opts).
Proof. scalar_field. Qed.

Lemma applyAll_hashKey : forall opts o,
  hashKey (keys (applyAll opts o)) =
  match lastOf asHashKey opts with Some k => Some k | None => hashKey (keys o) end.
Proof. scalar_field. Qed.

Lemma applyAll_rangeKey : forall opts o,
  rangeKey (keys (applyAll opts o)) =
  match lastOf asRangeKey opts with Some k => Some k | None => rangeKey (keys o) end.
Proof. scalar_field. Qed.

Lemma applyAll_readCapacityUnits : forall opts o,
  readCapacityUnits (applyAll opts o) =
  default (readCapacityUnits o) (lastOf asReadCapacity opts).
Proof. scalar_field. Qed.

Lemma applyAll_writeCapacityUnits : forall opts o,
  writeCapacityUnits (applyAll opts o) =
  default (writeCapacityUnits o) (lastOf asWriteCapacity opts).
Proof. scalar_field. Qed.

Lemma applyAll_streamViewType : forall opts o,
  streamViewType (applyAll opts o) =
  default (streamViewType o) (lastOf asStreamViewType opts).
Proof. scalar_field. Qed.

Lemma applyAll_projectionType : forall opts o,
  projectionType (applyAll opts o) = projectionType o.
Proof.
  intros opts; induction opts as [|fn opts IH]; intros o; [reflexivity|].
  rewrite applyAll_cons, IH. destruct fn; reflexivity.
Qed.

(** A list field after the loop: one element appended per option of the
    kind, in order. *)
Lemma applyAll_attributes : forall opts o,
  attributes (applyAll opts o) = attributes o ++ omap asAttr opts.
Proof.
  intros opts; induction opts as [|fn opts IH]; intros o.
  - simpl. rewrite app_nil_r. reflexivity.
  - rewrite applyAll_cons, IH. destruct fn; simpl; try reflexivity.
    rewrite <- app_assoc. reflexivity.
Qed.

Lemma applyAll_globalIndexes : forall opts o,
  globalIndexes (applyAll opts o) =
  globalIndexes o ++
    ((fun d : indexDecl => globalIndexFn d.1.1 d.1.2 d.2) <$> omap asGlobalIndex opts).
Proof.
  intros opts; induction opts as [|fn opts IH]; intros o.
  - simpl. rewrite app_nil_r. reflexivity.
  - rewrite applyAll_cons, IH. destruct fn; simpl; try reflexivity.
    rewrite <- app_assoc. reflexivity.
Qed.

Lemma applyAll_localIndexes : forall opts o,
  localIndexes (applyAll opts o) =
  localIndexes o ++
    ((fun d : indexDecl => localIndexFn d.1.1 d.1.2 d.2) <$> omap asLocalIndex opts).
Proof.
  intros opts; induction opts as [|fn opts IH]; intros o.
  - simpl. rewrite app_nil_r. reflexivity.
  - rewrite applyAll_cons, IH. destruct fn; simpl; try reflexivity.
    rewrite <- app_assoc. reflexivity.
Qed.

(** ** [merge] *)

(** Set reasoning in which the name sets of lists are atoms. *)
Ltac names_solver :=
  repeat match goal with
         | |- context [namesOf ?l] =>
             let X := fresh "X" in set (X := namesOf l) in *; clearbody X
         | H : context [namesOf ?l] |- _ =>
             let X := fresh "X" in set (X := namesOf l) in *; clearbody X
         end;
  lazymatch goal with
  | |- @eq (gset string) _ _ =>
      let y := fresh "y" in
      apply set_eq; intros y;
      repeat match goal with
             | H : @eq (gset string) _ _ |- _ => rewrite set_eq in H; specialize (H y)
             end;
      set_unfold; intuition congruence
  | |- _ => set_solver
  end.

Lemma namesOf_cons d l : namesOf (d :: l) = {[AttributeName d]} ∪ namesOf l.
Proof. reflexivity. Qed.

Lemma namesOf_app l1 l2 : namesOf (l1 ++ l2) = namesOf l1 ∪ namesOf l2.
Proof. unfold namesOf. rewrite fmap_app. apply list_to_set_app_L. Qed.

Lemma elem_of_namesOf x l : x ∈ namesOf l ↔ x ∈ AttributeName <$> l.
Proof. unfold namesOf. apply elem_of_list_to_set. Qed.

(** The first loop copies [definitions] and records their names. *)
Lemma merge_first_loop : forall definitions (seen : gset string) merged,
  fold_left
    (fun '(seen, merged) item => ({[AttributeName item]} ∪ seen, merged ++ [item]))
    definitions (seen, merged)
  = (namesOf definitions ∪ seen, merged ++ definitions).
Proof.
  induction definitions as [|d definitions IH]; intros seen merged; simpl.
  - rewrite app_nil_r. f_equal. symmetry. apply (left_id_L ∅ (∪)).
  - rewrite IH, namesOf_cons, <- app_assoc. simpl. f_equal. names_solver.
Qed.

(** The second loop appends the attributes whose name is new. *)
Lemma merge_second_loop : forall (attrs : list attribute) (seen : gset string) merged,
  snd (fold_left
         (fun '(seen, merged) attr =>
            if decide (Name attr ∈ seen) then (seen, merged)
            else ({[Name attr]} ∪ seen,
                  merged ++ [{| AttributeName := Name attr; AttributeType := Type_ attr |}]))
         attrs (seen, merged))
  = merged ++ dedupByName seen (toDefinition <$> attrs).
Proof.
  induction attrs as [|a attrs IH]; intros seen merged; simpl.
  - rewrite app_nil_r. reflexivity.
  - destruct (decide (Name a ∈ seen)) as [Hin|Hout].
    + apply IH.
    + rewrite IH, <- app_assoc. reflexivity.
Qed.

Lemma merge_spec definitions attributes :
  merge definitions attributes =
  definitions ++ dedupByName (namesOf definitions) (toDefinition <$> attributes).
Proof.
  unfold merge. rewrite merge_first_loop, merge_second_loop.
  rewrite union_empty_r_L. reflexivity.
Qed.

Lemma dedupByName_app : forall l1 l2 seen,
  dedupByName seen (l1 ++ l2) =
  dedupByName seen l1 ++ dedupByName (namesOf l1 ∪ seen) l2.
Proof.
  induction l1 as [|d l1 IH]; intros l2 seen; simpl.
  - f_equal. unfold namesOf. simpl. set_solver.
  - rewrite namesOf_cons. destruct (decide (AttributeName d ∈ seen)) as [Hin|Hout].
    + rewrite IH. do 2 f_equal. names_solver.
    + simpl. rewrite IH. do 3 f_equal. names_solver.
Qed.

Lemma namesOf_dedupByName : forall l seen,
  namesOf (dedupByName seen l) ∪ seen = namesOf l ∪ seen.
Proof.
  induction l as [|d l IH]; intros seen; simpl; [reflexivity|].
  rewrite namesOf_cons. destruct (decide (AttributeName d ∈ seen)) as [Hin|Hout].
  - rewrite IH. names_solver.
  - rewrite namesOf_cons. specialize (IH ({[AttributeName d]} ∪ seen)). names_solver.
Qed.

(** Merging list after list is merging their concatenation. *)
Lemma fold_merge_spec : forall (ls : list (list attribute)) definitions,
  fold_left merge ls definitions =
  definitions ++ dedupByName (namesOf definitions) (toDefinition <$> concat ls).
Proof.
  induction ls as [|attrs ls IH]; intros definitions; simpl.
  - rewrite app_nil_r. reflexivity.
  - rewrite IH, merge_spec, fmap_app, dedupByName_app, <- app_assoc.
    do 3 f_equal. rewrite namesOf_app.
    pose proof (namesOf_dedupByName (toDefinition <$> attrs) (namesOf definitions)).
    names_solver.
Qed.

(** ** What [dedupByName] keeps *)

Lemma dedupByName_elem : forall l seen d,
  d ∈ dedupByName seen l →
  d ∈ l ∧ (AttributeName d ∉ seen) ∧
  firstType (AttributeName d) l = Some (AttributeType d).
Proof.
  unfold firstType.
  induction l as [|c l IH]; intros seen d Hd; simpl in *.
  - inversion Hd.
  - destruct (decide (AttributeName c ∈ seen)) as [Hin|Hout].
    + destruct (IH _ _ Hd) as (Hl & Hs & Hf).
      split; [by right|]. split; [done|].
      rewrite bool_decide_eq_false_2; [done|]. congruence.
    + apply elem_of_cons in Hd as [->|Hd].
      * split; [by left|]. split; [done|].
        rewrite bool_decide_eq_true_2; done.
      * destruct (IH _ _ Hd) as (Hl & Hs & Hf).
        split; [by right|]. split; [set_solver|].
        rewrite bool_decide_eq_false_2; [done|]. set_solver.
Qed.

Lemma dedupByName_NoDup : forall l seen,
  NoDup (AttributeName <$> dedupByName seen l).
Proof.
  induction l as [|c l IH]; intros seen; simpl.
  - constructor.
  - destruct (decide (AttributeName c ∈ seen)) as [Hin|Hout]; [apply IH|].
    rewrite fmap_cons. apply NoDup_cons. split; [|apply IH].
    intros Hc. apply list_elem_of_fmap in Hc as (d & Heq & Hd).
    apply dedupByName_elem in Hd as (_ & Hs & _). set_solver.
Qed.

Lemma dedupByName_covers : forall l seen c,
  c ∈ l → AttributeName c ∈ seen ∨ AttributeName c ∈ AttributeName <$> dedupByName seen l.
Proof.
  intros l seen c Hc.
  assert (AttributeName c ∈ namesOf l ∪ seen) as Hn.
  { apply elem_of_union_l, elem_of_namesOf, list_elem_of_fmap_2, Hc. }
  rewrite <- namesOf_dedupByName in Hn.
  apply elem_of_union in Hn as [Hn|Hn]; [right|by left].
  by apply elem_of_namesOf.
Qed.

(** ** The shape of the rendered request *)

Lemma fold_addGlobalIndex bm : forall fns input,
  fold_left (addGlobalIndex bm) fns input =
  {| AttributeDefinitions :=
       fold_left merge ((fun fn => (fn bm).2) <$> fns) (AttributeDefinitions input);
     BillingMode := BillingMode input;
     GlobalSecondaryIndexes :=
       GlobalSecondaryIndexes input ++ ((fun fn => (fn bm).1) <$> fns);
     KeySchema := KeySchema input;
     LocalSecondaryIndexes := LocalSecondaryIndexes input;
     ProvisionedThroughput_ := ProvisionedThroughput_ input;
     StreamSpecification_ := StreamSpecification_ input;
     TableName := TableName input |}.
Proof.
  induction fns as [|fn fns IH]; intros input; simpl.
  - rewrite app_nil_r. destruct input; reflexivity.
  - rewrite IH. unfold addGlobalIndex. destruct (fn bm) as [gsi attrs]. simpl.
    rewrite <- app_assoc. reflexivity.
Qed.

Lemma fold_addLocalIndex bm : forall fns input,
  fold_left (addLocalIndex bm) fns input =
  {| AttributeDefinitions :=
       fold_left merge ((fun fn => (fn bm).2) <$> fns) (AttributeDefinitions input);
     BillingMode := BillingMode input;
     GlobalSecondaryIndexes := GlobalSecondaryIndexes input;
     KeySchema := KeySchema input;
     LocalSecondaryIndexes :=
       LocalSecondaryIndexes input ++ ((fun fn => (fn bm).1) <$> fns);
     ProvisionedThroughput_ := ProvisionedThroughput_ input;
     StreamSpecification_ := StreamSpecification_ input;
     TableName := TableName input |}.
Proof.
  induction fns as [|fn fns IH]; intros input; simpl.
  - rewrite app_nil_r. destruct input; reflexivity.
  - rewrite IH. unfold addLocalIndex. destruct (fn bm) as [lsi attrs]. simpl.
    rewrite <- app_assoc. reflexivity.
Qed.

Lemma makeCreateTableInput_shape tableName opts :
  let options := makeTableOptions (TableOptions opts) in
  let bm := billingMode options in
  makeCreateTableInput tableName opts =
  {| AttributeDefinitions :=
       fold_left merge ((fun fn => (fn bm).2) <$> localIndexes options)
         (fold_left merge ((fun fn => (fn bm).2) <$> globalIndexes options)
            (makeAttributeDefinitions options));
     BillingMode := bm;
     GlobalSecondaryIndexes := (fun fn => (fn bm).1) <$> globalIndexes options;
     KeySchema := makeKeySchemaElements options;
     LocalSecondaryIndexes := (fun fn => (fn bm).1) <$> localIndexes options;
     ProvisionedThroughput_ := makeProvisionedThroughput options;
     StreamSpecification_ :=
       if decide (streamViewType options = "") then None
       else Some {| StreamEnabled := true; StreamViewType := streamViewType options |};
     TableName := tableName |}.
Proof.
  intros options bm. unfold makeCreateTableInput.
  fold options. fold bm.
  rewrite fold_addLocalIndex, fold_addGlobalIndex.
  destruct (decide (streamViewType options = "")); reflexivity.
Qed.

Lemma makeAttributeDefinitions_table opts :
  makeAttributeDefinitions (makeTableOptions (TableOptions opts)) = tableKeyDefinitions opts.
Proof.
  unfold makeAttributeDefinitions, tableKeyDefinitions.
  rewrite makeTableOptions_table, applyAll_hashKey, applyAll_rangeKey. simpl.
  destruct (lastOf asHashKey opts), (lastOf asRangeKey opts); reflexivity.
Qed.

Lemma globalIndexFn_attributes n p io bm :
  (globalIndexFn n p io bm).2 = declaredAttrs (n, p, io).
Proof.
  unfold globalIndexFn, globalIndexBody, declaredAttrs.
  rewrite makeTableOptions_index. simpl. rewrite applyAll_attributes. reflexivity.
Qed.

Lemma localIndexFn_attributes n p io bm :
  (localIndexFn n p io bm).2 = declaredAttrs (n, p, io).
Proof.
  unfold localIndexFn, localIndexBody, declaredAttrs.
  rewrite makeTableOptions_index. simpl. rewrite applyAll_attributes. reflexivity.
Qed.

Lemma globalIndexes_attributes opts bm :
  (fun fn => (fn bm).2) <$> globalIndexes (makeTableOptions (TableOptions opts)) =
  declaredAttrs <$> omap asGlobalIndex opts.
Proof.
  rewrite makeTableOptions_table, applyAll_globalIndexes. simpl.
  rewrite <- list_fmap_compose. apply list_fmap_ext.
  intros i [[n p] io] _. apply globalIndexFn_attributes.
Qed.

Lemma localIndexes_attributes opts bm :
  (fun fn => (fn bm).2) <$> localIndexes (makeTableOptions (TableOptions opts)) =
  declaredAttrs <$> omap asLocalIndex opts.
Proof.
  rewrite makeTableOptions_table, applyAll_localIndexes. simpl.
  rewrite <- list_fmap_compose. apply list_fmap_ext.
  intros i [[n p] io] _. apply localIndexFn_attributes.
Qed.

(** The attribute definitions of the request, in closed form. *)
Lemma AttributeDefinitions_closed_form tableName opts :
  AttributeDefinitions (makeCreateTableInput tableName opts) =
  tableKeyDefinitions opts ++
    dedupByName (namesOf (tableKeyDefinitions opts)) (toDefinition <$> indexAttributes opts).
Proof.
  rewrite makeCreateTableInput_shape. cbv zeta. cbn [AttributeDefinitions].
  rewrite globalIndexes_attributes, localIndexes_attributes.
  rewrite <- fold_left_app, fold_merge_spec, makeAttributeDefinitions_table.
  rewrite concat_app. reflexivity.
Qed.

Lemma GlobalSecondaryIndexes_closed_form tableName opts :
  GlobalSecondaryIndexes (makeCreateTableInput tableName opts) =
  (fun d : indexDecl =>
     (globalIndexFn d.1.1 d.1.2 d.2
        (billingMode (makeTableOptions (TableOptions opts)))).1)
    <$> omap asGlobalIndex opts.
Proof.
  rewrite makeCreateTableInput_shape. cbv zeta. cbn [GlobalSecondaryIndexes].
  rewrite makeTableOptions_table, applyAll_globalIndexes. simpl.
  rewrite <- list_fmap_compose. reflexivity.
Qed.

Lemma LocalSecondaryIndexes_closed_form tableName opts :
  LocalSecondaryIndexes (makeCreateTableInput tableName opts) =
  (fun d : indexDecl =>
     (localIndexFn d.1.1 d.1.2 d.2
        (billingMode (makeTableOptions (TableOptions opts)))).1)
    <$> omap asLocalIndex opts.
Proof.
  rewrite makeCreateTableInput_shape. cbv zeta. cbn [LocalSecondaryIndexes].
  rewrite makeTableOptions_table, applyAll_localIndexes. simpl.
  rewrite <- list_fmap_compose. reflexivity.
Qed.

Lemma makeProvisionedThroughput_closed_form opts bm :
  makeProvisionedThroughput (set_billingMode bm (applyAll opts initialOptions)) =
  if decide (bm = BillingModePayPerRequest) then None else Some (capacityOf opts).
Proof.
  unfold makeProvisionedThroughput, capacityOf. simpl.
  rewrite applyAll_readCapacityUnits, applyAll_writeCapacityUnits. reflexivity.
Qed.

Lemma makeKeySchemaElements_closed_form opts bm :
  makeKeySchemaElements (set_billingMode bm (applyAll opts initialOptions)) =
  keySchemaOf opts.
Proof.
  unfold makeKeySchemaElements, keySchemaOf. simpl.
  rewrite applyAll_hashKey, applyAll_rangeKey. simpl.
  destruct (lastOf asHashKey opts), (lastOf asRangeKey opts); reflexivity.
Qed.

Lemma makeAttributeNames_fmap attrs : makeAttributeNames attrs = Name <$> attrs.
Proof.
  unfold makeAttributeNames.
  enough (forall acc, fold_left (fun names item => names ++ [Name item]) attrs acc
                      = acc ++ (Name <$> attrs)) as H by apply (H []).
  induction attrs as [|a attrs IH]; intros acc; simpl.
  - rewrite app_nil_r. reflexivity.
  - rewrite IH, <- app_assoc. reflexivity.
Qed.

(** A rendered global index, in closed form. *)
Lemma globalIndexFn_closed_form n p io bm :
  (globalIndexFn n p io bm).1 =
  {| gsi_IndexName := n;
     gsi_KeySchema := keySchemaOf io;
     gsi_Projection :=
       {| NonKeyAttributes := Name <$> declaredAttrs (n, p, io); ProjectionType := p |};
     gsi_ProvisionedThroughput :=
       if decide (bm = BillingModePayPerRequest) then None else Some (capacityOf io) |}.
Proof.
  unfold globalIndexFn, globalIndexBody. rewrite makeTableOptions_index. cbv zeta.
  cbn [fst]. rewrite makeProvisionedThroughput_closed_form,
    makeKeySchemaElements_closed_form, makeAttributeNames_fmap.
  unfold declaredAttrs. simpl. rewrite applyAll_attributes. reflexivity.
Qed.

(** A rendered local index, in closed form. *)
Lemma localIndexFn_closed_form n p io bm :
  (localIndexFn n p io bm).1 =
  {| lsi_IndexName := n;
     lsi_KeySchema := keySchemaOf io;
     lsi_Projection :=
       {| NonKeyAttributes := Name <$> declaredAttrs (n, p, io); ProjectionType := p |} |}.
Proof.
  unfold localIndexFn, localIndexBody. rewrite makeTableOptions_index. cbv zeta.
  cbn [fst]. rewrite makeKeySchemaElements_closed_form, makeAttributeNames_fmap.
  unfold declaredAttrs. simpl. rewrite applyAll_attributes. reflexivity.
Qed.

Lemma BillingMode_closed_form tableName opts :
  BillingMode (makeCreateTableInput tableName opts) =
  default DefaultBillingMode (lastOf asBillingMode opts).
Proof.
  rewrite makeCreateTableInput_shape. cbv zeta. cbn [BillingMode].
  rewrite makeTableOptions_table. apply applyAll_billingMode.
Qed.

Lemma ProvisionedThroughput_closed_form tableName opts :
  ProvisionedThroughput_ (makeCreateTableInput tableName opts) =
  if decide (BillingMode (makeCreateTableInput tableName opts) = BillingModePayPerRequest)
  then None else Some (capacityOf opts).
Proof.
  rewrite BillingMode_closed_form.
  rewrite makeCreateTableInput_shape. cbv zeta. cbn [ProvisionedThroughput_].
  rewrite makeTableOptions_table.
  unfold makeProvisionedThroughput, capacityOf.
  rewrite applyAll_billingMode, applyAll_readCapacityUnits, applyAll_writeCapacityUnits.
  reflexivity.
Qed.

Lemma KeySchema_closed_form tableName opts :
  KeySchema (makeCreateTableInput tableName opts) = keySchemaOf opts.
Proof.
  rewrite makeCreateTableInput_shape. cbv zeta. cbn [KeySchema].
  rewrite makeTableOptions_table.
  unfold makeKeySchemaElements, keySchemaOf.
  rewrite applyAll_hashKey, applyAll_rangeKey. simpl.
  destruct (lastOf asHashKey opts), (lastOf asRangeKey opts); reflexivity.
Qed.

(** ** The claims about the rendered request *)

(** C1. For every sequence of table options, the table-level provisioned
    throughput of the rendered request is present exactly when the resolved
    billing mode is not pay-per-request, and when present it carries the
    configured read and write capacity units: those of the last capacity
    options, else the defaults. *)
Theorem C1_throughput_iff_not_pay_per_request tableName opts :
  let input := makeCreateTableInput tableName opts in
  BillingMode input = billingMode (makeTableOptions (TableOptions opts)) ∧
  (is_Some (ProvisionedThroughput_ input) ↔ BillingMode input ≠ BillingModePayPerRequest) ∧
  ProvisionedThroughput_ input =
    (if decide (BillingMode input = BillingModePayPerRequest) then None
     else Some {| ReadCapacityUnits :=
                    readCapacityUnits (makeTableOptions (TableOptions opts));
                  WriteCapacityUnits :=
                    writeCapacityUnits (makeTableOptions (TableOptions opts)) |}) ∧
  readCapacityUnits (makeTableOptions (TableOptions opts)) =
    default DefaultReadCapacity (lastOf asReadCapacity opts) ∧
  writeCapacityUnits (makeTableOptions (TableOptions opts)) =
    default DefaultWriteCapacity (lastOf asWriteCapacity opts).
Proof.
  intros input. subst input.
  assert (BillingMode (makeCreateTableInput tableName opts) =
          billingMode (makeTableOptions (TableOptions opts))) as Hbm.
  { rewrite makeCreateTableInput_shape. reflexivity. }
  assert (ProvisionedThroughput_ (makeCreateTableInput tableName opts) =
          makeProvisionedThroughput (makeTableOptions (TableOptions opts))) as Hpt.
  { rewrite makeCreateTableInput_shape. reflexivity. }
  split; [exact Hbm|]. rewrite Hpt, Hbm. unfold makeProvisionedThroughput.
  split; [|split; [reflexivity|]].
  - destruct (decide (billingMode (makeTableOptions (TableOptions opts))
                      = BillingModePayPerRequest)) as [Heq|Hne].
    + split; [intros [pt Hpt']; discriminate | intros Hne; contradiction].
    + split; [intros _; exact Hne | intros _; eexists; reflexivity].
  - rewrite makeTableOptions_table. split.
    + apply applyAll_readCapacityUnits.
    + apply applyAll_writeCapacityUnits.
Qed.

(** The two directions of C1 on the requests of [create_test.go]: custom
    throughput is carried, pay-per-request carries none. *)
Lemma C1_throughput_witness :
  ProvisionedThroughput_
    (makeCreateTableInput "blah" [WithReadCapacity 4; WithWriteCapacity 5]) =
    Some {| ReadCapacityUnits := 4; WriteCapacityUnits := 5 |} ∧
  ¬ is_Some (ProvisionedThroughput_
               (makeCreateTableInput "blah" [WithBillingMode BillingModePayPerRequest])).
Proof.
  split.
  - destruct (C1_throughput_iff_not_pay_per_request "blah"
                [WithReadCapacity 4; WithWriteCapacity 5]) as (_ & _ & H & _).
    rewrite H. reflexivity.
  - destruct (C1_throughput_iff_not_pay_per_request "blah"
                [WithBillingMode BillingModePayPerRequest]) as (_ & H & _).
    intros Hs. apply H in Hs. apply Hs. reflexivity.
Defined.

(** C7. Rendering with hash key ("id", S), range key ("range", N) and no
    other option gives attribute definitions [{id,S},{range,N}], key schema
    [{id,HASH},{range,RANGE}], billing mode "PROVISIONED" and a provisioned
    throughput of 3 read and 3 write capacity units; no index and no stream
    specification. *)
Theorem C7_minimal_request tableName :
  makeCreateTableInput tableName
    [WithHashKey "id" ScalarAttributeTypeS; WithRangeKey "range" ScalarAttributeTypeN] =
  {| AttributeDefinitions :=
       [{| AttributeName := "id"; AttributeType := "S" |};
        {| AttributeName := "range"; AttributeType := "N" |}];
     BillingMode := "PROVISIONED";
     GlobalSecondaryIndexes := [];
     KeySchema :=
       [{| kse_AttributeName := "id"; KeyType := "HASH" |};
        {| kse_AttributeName := "range"; KeyType := "RANGE" |}];
     LocalSecondaryIndexes := [];
     ProvisionedThroughput_ := Some {| ReadCapacityUnits := 3; WriteCapacityUnits := 3 |};
     StreamSpecification_ := None;
     TableName := tableName |}.
Proof. reflexivity. Qed.

(** C8. Options are folded into the configuration in the order supplied.
    Each scalar field (billing mode, hash key, range key, read capacity,
    write capacity, stream view type) ends with the value of the last option
    of its kind, or its initial value when there is none; each list field
    (attributes, global indexes, local indexes) receives one element per
    option of its kind, in the order of the options.  The same holds for an
    index's option list. *)
Theorem C8_options_fold_in_order opts :
  let options := makeTableOptions (TableOptions opts) in
  (forall opts1 opts2, opts = opts1 ++ opts2 ->
     options = applyAll opts2 (makeTableOptions (TableOptions opts1))) ∧
  (forall fn, makeTableOptions (TableOptions (opts ++ [fn])) = ApplyTable fn options) ∧
  makeTableOptions (IndexOptions opts) = options ∧
  billingMode options = default DefaultBillingMode (lastOf asBillingMode opts) ∧
  hashKey (keys options) = lastOf asHashKey opts ∧
  rangeKey (keys options) = lastOf asRangeKey opts ∧
  readCapacityUnits options = default DefaultReadCapacity (lastOf asReadCapacity opts) ∧
  writeCapacityUnits options = default DefaultWriteCapacity (lastOf asWriteCapacity opts) ∧
  streamViewType options = default "" (lastOf asStreamViewType opts) ∧
  attributes options = omap asAttr opts ∧
  globalIndexes options =
    ((fun d : indexDecl => globalIndexFn d.1.1 d.1.2 d.2) <$> omap asGlobalIndex opts) ∧
  localIndexes options =
    ((fun d : indexDecl => localIndexFn d.1.1 d.1.2 d.2) <$> omap asLocalIndex opts).
Proof.
  intros options. subst options. rewrite makeTableOptions_index, !makeTableOptions_table.
  repeat split.
  - intros opts1 opts2 ->. rewrite makeTableOptions_table. apply applyAll_app.
  - intros fn. rewrite makeTableOptions_table, applyAll_app. reflexivity.
  - apply applyAll_billingMode.
  - rewrite applyAll_hashKey. destruct (lastOf asHashKey opts); reflexivity.
  - rewrite applyAll_rangeKey. destruct (lastOf asRangeKey opts); reflexivity.
  - apply applyAll_readCapacityUnits.
  - apply applyAll_writeCapacityUnits.
  - apply applyAll_streamViewType.
  - apply applyAll_attributes.
  - apply applyAll_globalIndexes.
  - apply applyAll_localIndexes.
Qed.

(** C8 on a sequence that sets every scalar twice and declares two indexes
    of each kind: the later scalar wins, the lists keep the order. *)
Lemma C8_options_fold_witness :
  let opts :=
    [WithBillingMode "PAY_PER_REQUEST"; WithHashKey "a" "S"; WithReadCapacity 7;
     WithGlobalSecondaryIndex "g1" "ALL" []; WithLocalSecondaryIndex "l1" "ALL" []] in
  let more :=
    [WithBillingMode "PROVISIONED"; WithHashKey "b" "N"; WithReadCapacity 9;
     WithGlobalSecondaryIndex "g2" "ALL" []; WithLocalSecondaryIndex "l2" "ALL" []] in
  let options := makeTableOptions (TableOptions (opts ++ more)) in
  options = applyAll more (makeTableOptions (TableOptions opts)) ∧
  billingMode options = "PROVISIONED" ∧
  hashKey (keys options) = Some {| attributeName := "b"; attributeType := "N" |} ∧
  readCapacityUnits options = 9%Z ∧
  ((fun fn => gsi_IndexName (fn "PROVISIONED").1) <$> globalIndexes options) = ["g1"; "g2"] ∧
  ((fun fn => lsi_IndexName (fn "PROVISIONED").1) <$> localIndexes options) = ["l1"; "l2"].
Proof.
  intros opts more options.
  destruct (C8_options_fold_in_order (opts ++ more))
    as (Happ & _ & _ & Hbm & Hhk & _ & Hrc & _ & _ & _ & Hgi & Hli).
  fold options in Happ, Hbm, Hhk, Hrc, Hgi, Hli.
  split; [apply (Happ opts more); reflexivity|].
  rewrite Hbm, Hhk, Hrc, Hgi, Hli. repeat split; reflexivity.
Defined.

(** ** Attribute definitions *)

Lemma distinctTableKeys_NoDup opts :
  distinctTableKeys opts → NoDup (AttributeName <$> tableKeyDefinitions opts).
Proof.
  unfold distinctTableKeys, tableKeyDefinitions.
  destruct (lastOf asHashKey opts) as [h|], (lastOf asRangeKey opts) as [r|];
    simpl; intros Hne; repeat constructor; set_solver.
Qed.

(** When no name repeats, de-duplication changes nothing. *)
Lemma dedupByName_NoDup_id : forall l seen,
  NoDup (AttributeName <$> l) →
  (forall d, d ∈ l → AttributeName d ∉ seen) →
  dedupByName seen l = l.
Proof.
  induction l as [|c l IH]; intros seen Hnd Hseen; simpl; [reflexivity|].
  rewrite fmap_cons in Hnd. apply NoDup_cons in Hnd as [Hc Hnd].
  destruct (decide (AttributeName c ∈ seen)) as [Hin|Hout].
  - exfalso. apply (Hseen c); [by left | done].
  - f_equal. apply IH; [done|].
    intros d Hd Hd'. apply elem_of_union in Hd' as [Hd'|Hd'].
    + apply elem_of_singleton in Hd'. apply Hc. rewrite <- Hd'.
      by apply list_elem_of_fmap_2.
    + apply (Hseen d); [by right | done].
Qed.

Lemma firstType_app_l name l1 l2 d :
  NoDup (AttributeName <$> l1) → d ∈ l1 → AttributeName d = name →
  firstType name (l1 ++ l2) = Some (AttributeType d).
Proof.
  unfold firstType. intros Hnd Hd <-.
  induction l1 as [|c l1 IH]; [inversion Hd|].
  rewrite fmap_cons in Hnd. apply NoDup_cons in Hnd as [Hc Hnd]. simpl.
  apply elem_of_cons in Hd as [->|Hd].
  - rewrite bool_decide_eq_true_2; done.
  - rewrite bool_decide_eq_false_2; [by apply IH|].
    intros Heq. apply Hc. rewrite Heq. by apply list_elem_of_fmap_2.
Qed.

Lemma firstType_app_r name l1 l2 :
  name ∉ AttributeName <$> l1 → firstType name (l1 ++ l2) = firstType name l2.
Proof.
  unfold firstType. intros Hout.
  induction l1 as [|c l1 IH]; [reflexivity|]. simpl.
  rewrite fmap_cons in Hout. apply not_elem_of_cons in Hout as [Hne Hout].
  rewrite bool_decide_eq_false_2; [by apply IH | done].
Qed.

(** C3 (amended). For every sequence of table options, the attribute
    definitions of the rendered request are the table's resolved hash and
    range key attributes followed by the attributes declared with [WithAttr]
    in the option lists of the global indexes, then of the local indexes,
    in order, an attribute being skipped when its name already occurs
    earlier in the result.  The attributes of an index's own key schema are
    not added.  When the table's two keys have different names this is the
    whole candidate list de-duplicated by name, first occurrence kept. *)
Theorem C3_attribute_definitions_merge tableName opts :
  let defs := AttributeDefinitions (makeCreateTableInput tableName opts) in
  defs =
    tableKeyDefinitions opts ++
    dedupByName (namesOf (tableKeyDefinitions opts)) (toDefinition <$> indexAttributes opts) ∧
  tableKeyDefinitions opts =
    makeAttributeDefinitions (makeTableOptions (TableOptions opts)) ∧
  (distinctTableKeys opts → defs = dedupByName ∅ (candidates opts)).
Proof.
  intros defs. subst defs. rewrite AttributeDefinitions_closed_form.
  split; [reflexivity|]. split; [symmetry; apply makeAttributeDefinitions_table|].
  intros Hd. unfold candidates. rewrite dedupByName_app.
  apply distinctTableKeys_NoDup in Hd.
  rewrite (dedupByName_NoDup_id _ ∅ Hd); [|set_solver].
  do 2 f_equal. names_solver.
Qed.

(** C3 at the request of the "gsi" test extended with a table key and a
    second declaration of "hello". *)
Lemma C3_attribute_definitions_witness :
  AttributeDefinitions
    (makeCreateTableInput "blah"
       [WithHashKey "id" "S";
        WithGlobalSecondaryIndex "index" "INCLUDE" [WithAttr "hello" "S"; WithAttr "id" "N"];
        WithLocalSecondaryIndex "local" "INCLUDE" [WithAttr "hello" "N"; WithAttr "w" "N"]]) =
  [{| AttributeName := "id"; AttributeType := "S" |};
   {| AttributeName := "hello"; AttributeType := "S" |};
   {| AttributeName := "w"; AttributeType := "N" |}].
Proof.
  destruct (C3_attribute_definitions_merge "blah"
       [WithHashKey "id" "S";
        WithGlobalSecondaryIndex "index" "INCLUDE" [WithAttr "hello" "S"; WithAttr "id" "N"];
        WithLocalSecondaryIndex "local" "INCLUDE" [WithAttr "hello" "N"; WithAttr "w" "N"]])
    as (_ & _ & H).
  rewrite H; [vm_compute; reflexivity | exact I].
Defined.

(** A global index with its own hash key "gk": the key schema of the
    rendered index names "gk", the attribute definitions of the request do
    not, so they differ from the list that includes the attributes of the
    index's key schema. *)
Lemma C3_index_keys_not_merged :
  let opts :=
    [WithHashKey "id" "S"; WithGlobalSecondaryIndex "idx" "ALL" [WithHashKey "gk" "S"]] in
  let input := makeCreateTableInput "blah" opts in
  forallb isTableOption opts = true ∧
  AttributeDefinitions input = [{| AttributeName := "id"; AttributeType := "S" |}] ∧
  (gsi_KeySchema <$> GlobalSecondaryIndexes input) =
    [[{| kse_AttributeName := "gk"; KeyType := "HASH" |}]] ∧
  attributeDefinitionsWithIndexKeys opts =
    [{| AttributeName := "id"; AttributeType := "S" |};
     {| AttributeName := "gk"; AttributeType := "S" |}] ∧
  AttributeDefinitions input ≠ attributeDefinitionsWithIndexKeys opts.
Proof.
  vm_compute. repeat split; discriminate.
Qed.

(** C2 (amended). For every sequence of table options whose resolved table
    hash key and range key do not share a name, no two attribute definitions
    of the rendered request have the same name; every entry carries the type
    of the first candidate of its name, the candidates being taken in the
    order of rendering (table hash key, table range key, the attributes
    of the global indexes, then those of the local indexes); and every
    candidate name is present. *)
Theorem C2_attribute_names_unique tableName opts :
  distinctTableKeys opts →
  let defs := AttributeDefinitions (makeCreateTableInput tableName opts) in
  NoDup (AttributeName <$> defs) ∧
  (forall d, d ∈ defs →
     firstType (AttributeName d) (candidates opts) = Some (AttributeType d)) ∧
  (forall c, c ∈ candidates opts → AttributeName c ∈ AttributeName <$> defs).
Proof.
  intros Hd defs. subst defs. rewrite AttributeDefinitions_closed_form.
  apply distinctTableKeys_NoDup in Hd. unfold candidates.
  split; [|split].
  - rewrite fmap_app. apply NoDup_app. split; [exact Hd|]. split.
    + intros x Hx Hx'. apply list_elem_of_fmap in Hx' as (d & -> & Hd').
      apply dedupByName_elem in Hd' as (_ & Hs & _).
      apply Hs, elem_of_namesOf, Hx.
    + apply dedupByName_NoDup.
  - intros d Hin. apply elem_of_app in Hin as [Hin|Hin].
    + by apply (firstType_app_l _ _ _ d).
    + apply dedupByName_elem in Hin as (_ & Hs & Hf).
      rewrite firstType_app_r; [exact Hf|].
      intros Hx. apply Hs, elem_of_namesOf, Hx.
  - intros c Hin. rewrite fmap_app. apply elem_of_app.
    apply elem_of_app in Hin as [Hin|Hin].
    + left. by apply list_elem_of_fmap_2.
    + destruct (dedupByName_covers _ (namesOf (tableKeyDefinitions opts)) c Hin)
        as [Hk|Hk]; [left; by apply elem_of_namesOf | by right].
Qed.

(** C2 on a request that declares "id" on the table and on two indexes with
    three different types: "id" is defined once, with the table's type. *)
Lemma C2_attribute_names_witness :
  let opts :=
    [WithHashKey "id" "S"; WithRangeKey "range" "N";
     WithLocalSecondaryIndex "local" "ALL" [WithAttr "id" "B"; WithAttr "x" "S"];
     WithGlobalSecondaryIndex "global" "ALL" [WithAttr "id" "N"; WithAttr "x" "N"]] in
  let defs := AttributeDefinitions (makeCreateTableInput "blah" opts) in
  NoDup (AttributeName <$> defs) ∧
  firstType "id" (candidates opts) = Some "S" ∧
  defs = [{| AttributeName := "id"; AttributeType := "S" |};
          {| AttributeName := "range"; AttributeType := "N" |};
          {| AttributeName := "x"; AttributeType := "N" |}].
Proof.
  intros opts defs.
  assert (distinctTableKeys opts) as Hd by (vm_compute; discriminate).
  destruct (C2_attribute_names_unique "blah" opts Hd) as (Hnd & Hfirst & _).
  split; [exact Hnd|]. split; [|vm_compute; reflexivity].
  apply (Hfirst {| AttributeName := "id"; AttributeType := "S" |}).
  vm_compute. left.
Defined.

(** A table whose hash key and range key are both named "a": the two table
    key definitions are copied as they are, and the name "a" occurs twice. *)
Lemma C2_same_name_table_keys :
  let opts := [WithHashKey "a" "S"; WithRangeKey "a" "N"] in
  forallb isTableOption opts = true ∧
  AttributeDefinitions (makeCreateTableInput "blah" opts) =
    [{| AttributeName := "a"; AttributeType := "S" |};
     {| AttributeName := "a"; AttributeType := "N" |}] ∧
  ¬ NoDup (AttributeName <$> AttributeDefinitions (makeCreateTableInput "blah" opts)).
Proof.
  vm_compute. repeat split.
  intros Hnd. apply NoDup_cons in Hnd as [Hnot _]. apply Hnot. left.
Qed.

(** ** Index throughput *)

(** C6. In every rendered request, a local secondary index entry consists
    of its name, its key schema and its projection and of nothing else (the
    entry has no throughput field, and neither the billing mode nor any
    capacity option reaches it), and every global secondary index entry
    carries a provisioned throughput whenever the table's resolved billing
    mode is provisioned. *)
Theorem C6_index_throughput tableName opts :
  let input := makeCreateTableInput tableName opts in
  LocalSecondaryIndexes input =
    ((fun d : indexDecl =>
        {| lsi_IndexName := d.1.1;
           lsi_KeySchema := keySchemaOf d.2;
           lsi_Projection :=
             {| NonKeyAttributes := Name <$> declaredAttrs d;
                ProjectionType := d.1.2 |} |}) <$> omap asLocalIndex opts) ∧
  (BillingMode input = BillingModeProvisioned →
   Forall (fun g => is_Some (gsi_ProvisionedThroughput g)) (GlobalSecondaryIndexes input)).
Proof.
  intros input. subst input. split.
  - rewrite LocalSecondaryIndexes_closed_form. apply list_fmap_ext.
    intros i [[n p] io] _. apply localIndexFn_closed_form.
  - intros Hbm. rewrite GlobalSecondaryIndexes_closed_form.
    assert (billingMode (makeTableOptions (TableOptions opts)) = BillingModeProvisioned)
      as -> by (rewrite <- Hbm, makeCreateTableInput_shape; reflexivity).
    apply Forall_fmap, Forall_forall. intros [[n p] io] _.
    unfold compose. cbn [fst snd].
    rewrite globalIndexFn_closed_form. simpl. eexists; reflexivity.
Qed.

(** C6 on a provisioned table with one index of each kind, each index
    declaring capacity of its own: the global index carries it, the local
    index entry is name, key schema and projection. *)
Lemma C6_index_throughput_witness :
  let opts :=
    [WithHashKey "id" "S";
     WithGlobalSecondaryIndex "g" "ALL" [WithHashKey "gk" "S"; WithReadCapacity 10];
     WithLocalSecondaryIndex "l" "ALL" [WithHashKey "id" "S"; WithReadCapacity 10]] in
  let input := makeCreateTableInput "blah" opts in
  Forall (fun g => is_Some (gsi_ProvisionedThroughput g)) (GlobalSecondaryIndexes input) ∧
  LocalSecondaryIndexes input =
    [{| lsi_IndexName := "l";
        lsi_KeySchema := [{| kse_AttributeName := "id"; KeyType := "HASH" |}];
        lsi_Projection := {| NonKeyAttributes := []; ProjectionType := "ALL" |} |}].
Proof.
  intros opts input.
  destruct (C6_index_throughput "blah" opts) as [Hl Hg].
  split; [apply Hg; reflexivity | etrans; [exact Hl | reflexivity]].
Defined.

Lemma omap_cons_sel {A} (sel : tableIndexFunc -> option A) fn opts :
  omap sel (fn :: opts) =
  match sel fn with Some y => y :: omap sel opts | None => omap sel opts end.
Proof. reflexivity. Qed.

Lemma withoutCapacity_cons fn opts :
  withoutCapacity (fn :: opts) =
  if isCapacity fn then withoutCapacity opts else fn :: withoutCapacity opts.
Proof. unfold withoutCapacity. simpl. destruct (isCapacity fn); reflexivity. Qed.

Lemma omap_withoutCapacity {A} (sel : tableIndexFunc -> option A) opts :
  (forall fn, isCapacity fn = true → sel fn = None) →
  omap sel (withoutCapacity opts) = omap sel opts.
Proof.
  intros Hsel. induction opts as [|fn opts IH]; [reflexivity|].
  rewrite withoutCapacity_cons, (omap_cons_sel sel fn opts).
  destruct (isCapacity fn) eqn:Hc.
  - rewrite (Hsel fn Hc). exact IH.
  - rewrite omap_cons_sel, IH. reflexivity.
Qed.

(** C9. Table-level capacity options do not reach a global secondary index.
    The rendered global indexes of two option lists are the same whenever
    the lists declare the same global indexes and resolve to the same
    billing mode, in particular when the table's capacity options are
    removed; the throughput of a rendered global index is absent under
    pay-per-request and otherwise holds the capacity of the index's own
    option list, which is the default 3 and 3 when that list has no
    capacity option. *)
Theorem C9_index_capacity_independent tableName opts :
  let input := makeCreateTableInput tableName opts in
  (forall tableName' opts',
     omap asGlobalIndex opts' = omap asGlobalIndex opts →
     BillingMode (makeCreateTableInput tableName' opts') = BillingMode input →
     GlobalSecondaryIndexes (makeCreateTableInput tableName' opts') =
     GlobalSecondaryIndexes input) ∧
  GlobalSecondaryIndexes (makeCreateTableInput tableName (withoutCapacity opts)) =
    GlobalSecondaryIndexes input ∧
  Forall2
    (fun (d : indexDecl) g =>
       gsi_ProvisionedThroughput g =
         (if decide (BillingMode input = BillingModePayPerRequest) then None
          else Some (capacityOf d.2)) ∧
       (forallb (fun fn => negb (isCapacity fn)) d.2 = true →
        capacityOf d.2 = {| ReadCapacityUnits := 3; WriteCapacityUnits := 3 |}))
    (omap asGlobalIndex opts) (GlobalSecondaryIndexes input).
Proof.
  intros input. subst input.
  assert (forall tn o, BillingMode (makeCreateTableInput tn o) =
                       billingMode (makeTableOptions (TableOptions o))) as Hbm.
  { intros tn o. rewrite makeCreateTableInput_shape. reflexivity. }
  assert (forall tableName' opts',
     omap asGlobalIndex opts' = omap asGlobalIndex opts →
     BillingMode (makeCreateTableInput tableName' opts') =
       BillingMode (makeCreateTableInput tableName opts) →
     GlobalSecondaryIndexes (makeCreateTableInput tableName' opts') =
     GlobalSecondaryIndexes (makeCreateTableInput tableName opts)) as Hsame.
  { intros tn' opts' Hdecl Hmode. rewrite !GlobalSecondaryIndexes_closed_form.
    rewrite !Hbm in Hmode. rewrite Hdecl, Hmode. reflexivity. }
  split; [exact Hsame|]. split.
  - apply Hsame.
    + apply omap_withoutCapacity. intros fn. destruct fn; simpl; congruence.
    + rewrite !BillingMode_closed_form. unfold lastOf.
      rewrite omap_withoutCapacity; [reflexivity|].
      intros fn. destruct fn; simpl; congruence.
  - rewrite GlobalSecondaryIndexes_closed_form, Hbm.
    apply Forall2_fmap_r, Forall_Forall2_diag, Forall_forall.
    intros [[n p] io] _. unfold compose. cbn [fst snd].
    rewrite globalIndexFn_closed_form.
    cbn [gsi_ProvisionedThroughput fst snd].
    split; [reflexivity|].
    intros Hnone. unfold capacityOf.
    assert (lastOf asReadCapacity io = None ∧ lastOf asWriteCapacity io = None) as [-> ->];
      [|reflexivity].
    clear -Hnone. induction io as [|fn io IH]; [split; reflexivity|].
    simpl in Hnone. apply andb_true_iff in Hnone as [Hfn Hio].
    destruct (IH Hio) as [Hr Hw]. rewrite !lastOf_cons, Hr, Hw.
    destruct fn; simpl in *; try discriminate; split; reflexivity.
Qed.

(** C9 on a table that declares capacity 10 and 20 and one global index
    without capacity options: the index keeps 3 and 3, and is the one
    rendered without the table's capacity options. *)
Lemma C9_index_capacity_witness :
  let index := WithGlobalSecondaryIndex "index" "INCLUDE" [WithAttr "hello" "S"] in
  let input := makeCreateTableInput "blah" [WithReadCapacity 10; WithWriteCapacity 20; index] in
  ProvisionedThroughput_ input =
    Some {| ReadCapacityUnits := 10; WriteCapacityUnits := 20 |} ∧
  GlobalSecondaryIndexes (makeCreateTableInput "other" [index]) =
    GlobalSecondaryIndexes input ∧
  (gsi_ProvisionedThroughput <$> GlobalSecondaryIndexes input) =
    [Some {| ReadCapacityUnits := 3; WriteCapacityUnits := 3 |}].
Proof.
  intros index input.
  destruct (C9_index_capacity_independent "blah"
              [WithReadCapacity 10; WithWriteCapacity 20; index]) as (Hsame & _ & Hall).
  fold input in Hsame, Hall.
  split; [reflexivity|]. split.
  - apply Hsame; reflexivity.
  - change (omap asGlobalIndex [WithReadCapacity 10; WithWriteCapacity 20; index])
      with [("index", "INCLUDE", [WithAttr "hello" "S"]) : indexDecl] in Hall.
    destruct (GlobalSecondaryIndexes input) as [|g gs] eqn:Hg; [inversion Hall|].
    apply Forall2_cons_1 in Hall as [[Hpt Hdef] Hrest].
    apply Forall2_nil_inv_l in Hrest as ->.
    simpl. rewrite Hpt, Hdef; reflexivity.
Defined.

(** ** The lifecycle handle *)

Lemma isAwserrWithCode_true e code :
  isAwserrWithCode e code = true ↔ Code e = Some code.
Proof.
  unfold isAwserrWithCode. destruct (Code e) as [c|].
  - rewrite bool_decide_eq_true. split; congruence.
  - split; discriminate.
Qed.

Lemma isAwserrWithCode_false e code :
  isAwserrWithCode e code = false ↔ Code e ≠ Some code.
Proof.
  rewrite <- isAwserrWithCode_true. destruct (isAwserrWithCode e code); split; congruence.
Qed.

Section LifecycleProperties.

Context {Ctx St : Type}.
Implicit Types (t : Table Ctx St) (ctx : Ctx) (s : St).

(** One client call, on the request rendered from the hash key followed by
    the caller's options. *)
Lemma CreateTableIfNotExists_one_call t ctx hashKeyName hashKeyType opts s :
  CreateTableIfNotExists t ctx hashKeyName hashKeyType opts s =
  swallow ErrCodeResourceInUseException
    (CreateTableWithContext (api t) ctx
       (makeCreateTableInput (tableName t) (WithHashKey hashKeyName hashKeyType :: opts)) s).
Proof.
  unfold CreateTableIfNotExists, swallow. simpl.
  destruct (CreateTableWithContext _ _ _ _) as [[e|] s']; reflexivity.
Qed.

(** One client call, on a request that carries the bound table name. *)
Lemma DeleteTableIfExists_one_call t ctx s :
  DeleteTableIfExists t ctx s =
  swallow ErrCodeResourceNotFoundException
    (DeleteTableWithContext (api t) ctx {| del_TableName := tableName t |} s).
Proof.
  unfold DeleteTableIfExists, swallow.
  destruct (DeleteTableWithContext _ _ _ _) as [[e|] s']; reflexivity.
Qed.

Lemma swallow_state code (reply : option error * St) : (swallow code reply).2 = reply.2.
Proof. unfold swallow. destruct reply.1 as [e|]; [destruct (isAwserrWithCode e code)|]; done. Qed.

Lemma swallow_nil code (reply : option error * St) :
  reply.1 = None → (swallow code reply).1 = None.
Proof. unfold swallow. by intros ->. Qed.

Lemma swallow_code code e (reply : option error * St) :
  reply.1 = Some e → Code e = Some code → (swallow code reply).1 = None.
Proof.
  unfold swallow. intros -> Hc. apply isAwserrWithCode_true in Hc. by rewrite Hc.
Qed.

Lemma swallow_other code e (reply : option error * St) :
  reply.1 = Some e → Code e ≠ Some code → (swallow code reply).1 = Some e.
Proof.
  unfold swallow. intros -> Hne. apply isAwserrWithCode_false in Hne. by rewrite Hne.
Qed.

(** C4. [CreateTableIfNotExists] makes one create-table call, on the request
    rendered from the hash key arguments followed by the options.  It
    returns nil when the call succeeds or fails with an [awserr.Error] whose
    code is "ResourceInUseException", and returns the client's error value
    as it is for every other error.  Hence, when the collaborator accepts
    the first of two consecutive identical calls (or reports the table in
    use) and reports the table in use on the second, both return nil. *)
Theorem C4_create_if_not_exists t ctx hashKeyName hashKeyType opts s :
  let input :=
    makeCreateTableInput (tableName t) (WithHashKey hashKeyName hashKeyType :: opts) in
  let reply := CreateTableWithContext (api t) ctx input s in
  let result := CreateTableIfNotExists t ctx hashKeyName hashKeyType opts s in
  let again := CreateTableWithContext (api t) ctx input reply.2 in
  result.2 = reply.2 ∧
  (reply.1 = None → result.1 = None) ∧
  (forall e,
     reply.1 = Some e → Code e = Some ErrCodeResourceInUseException →
     result.1 = None) ∧
  (forall e,
     reply.1 = Some e → Code e ≠ Some ErrCodeResourceInUseException →
     result.1 = Some e) ∧
  (forall e2,
     reply.1 = None ∨
       (exists e1, reply.1 = Some e1 ∧ Code e1 = Some ErrCodeResourceInUseException) →
     again.1 = Some e2 → Code e2 = Some ErrCodeResourceInUseException →
     result.1 = None ∧
     (CreateTableIfNotExists t ctx hashKeyName hashKeyType opts result.2).1 = None).
Proof.
  intros input reply result again. subst result again.
  rewrite CreateTableIfNotExists_one_call. fold input. fold reply.
  assert (reply.1 = None ∨
            (exists e1, reply.1 = Some e1 ∧ Code e1 = Some ErrCodeResourceInUseException) →
          (swallow ErrCodeResourceInUseException reply).1 = None) as Hfirst.
  { intros [Hnil|(e1 & Hreply & Hcode)];
      [by apply swallow_nil | by apply (swallow_code _ e1)]. }
  split; [apply swallow_state|]. split; [apply swallow_nil|].
  split; [intros e; apply swallow_code|]. split; [intros e; apply swallow_other|].
  intros e2 H1 H2 Hcode. split; [by apply Hfirst|].
  rewrite CreateTableIfNotExists_one_call, swallow_state. fold input.
  by apply (swallow_code _ e2).
Qed.

(** C5. [DeleteTableIfExists] makes one delete-table call, on a request that
    carries exactly the bound table name.  It returns nil when the call
    succeeds or fails with an [awserr.Error] whose code is
    "ResourceNotFoundException", and returns the client's error value as it
    is for every other error. *)
Theorem C5_delete_if_exists t ctx s :
  let input := {| del_TableName := tableName t |} in
  let reply := DeleteTableWithContext (api t) ctx input s in
  let result := DeleteTableIfExists t ctx s in
  result.2 = reply.2 ∧
  (reply.1 = None → result.1 = None) ∧
  (forall e,
     reply.1 = Some e → Code e = Some ErrCodeResourceNotFoundException →
     result.1 = None) ∧
  (forall e,
     reply.1 = Some e → Code e ≠ Some ErrCodeResourceNotFoundException →
     result.1 = Some e).
Proof.
  intros input reply result. subst result.
  rewrite DeleteTableIfExists_one_call. fold input. fold reply.
  split; [apply swallow_state|]. split; [apply swallow_nil|].
  split; [intros e; apply swallow_code | intros e; apply swallow_other].
Qed.

End LifecycleProperties.

(** C4 on the mocks of [create_test.go] ("ok", "table already exists"), on
    two errors that are passed on, and on a collaborator that creates the
    table on the first call and reports it in use on the second. *)
Lemma C4_create_if_not_exists_witness :
  let existsErr := awserrNew ErrCodeResourceInUseException "boom" in
  let denied := awserrNew "AccessDeniedException" "denied" in
  let table (err : option error) : Table unit unit := New (Mock err) "blah" in
  let scripted : Table unit scripted := New Scripted "blah" in
  let s0 := {| replies := [None; Some existsErr]; received := [] |} in
  (CreateTableIfNotExists (table None) () "id" "S" [] ()).1 = None ∧
  (CreateTableIfNotExists (table (Some existsErr)) () "id" "S" [] ()).1 = None ∧
  (CreateTableIfNotExists (table (Some denied)) () "id" "S" [] ()).1 = Some denied ∧
  (CreateTableIfNotExists (table (Some (otherError "timeout"))) () "id" "S" [] ()).1 =
    Some (otherError "timeout") ∧
  (CreateTableIfNotExists scripted () "id" "S" [] s0).1 = None ∧
  (CreateTableIfNotExists scripted () "id" "S" []
     (CreateTableIfNotExists scripted () "id" "S" [] s0).2).1 = None.
Proof.
  intros existsErr denied table scripted s0.
  split.
  { destruct (C4_create_if_not_exists (table None) () "id" "S" [] ())
      as (_ & H & _). apply H. reflexivity. }
  split.
  { destruct (C4_create_if_not_exists (table (Some existsErr)) () "id" "S" [] ())
      as (_ & _ & H & _). apply (H existsErr); reflexivity. }
  split.
  { destruct (C4_create_if_not_exists (table (Some denied)) () "id" "S" [] ())
      as (_ & _ & _ & H & _). apply H; [reflexivity | discriminate]. }
  split.
  { destruct (C4_create_if_not_exists
                (table (Some (otherError "timeout"))) () "id" "S" [] ())
      as (_ & _ & _ & H & _). apply H; [reflexivity | discriminate]. }
  destruct (C4_create_if_not_exists scripted () "id" "S" [] s0) as (_ & _ & _ & _ & H).
  apply (H existsErr); [left; reflexivity | reflexivity | reflexivity].
Defined.

(** C5 on the mocks of [table_test.go] ("ok" and the not-found reply), on an
    error that is passed on, and on the recording collaborator: the single
    request it receives names the bound table. *)
Lemma C5_delete_if_exists_witness :
  let notFound := awserrNew ErrCodeResourceNotFoundException "boom" in
  let table (err : option error) : Table unit unit := New (Mock err) "blah" in
  let scripted : Table unit scripted := New Scripted "blah" in
  let s0 := {| replies := [Some notFound]; received := [] |} in
  (DeleteTableIfExists (table None) () ()).1 = None ∧
  (DeleteTableIfExists (table (Some notFound)) () ()).1 = None ∧
  (DeleteTableIfExists (table (Some (otherError "timeout"))) () ()).1 =
    Some (otherError "timeout") ∧
  received (DeleteTableIfExists scripted () s0).2 =
    [DeleteRequest {| del_TableName := "blah" |}].
Proof.
  intros notFound table scripted s0.
  split.
  { destruct (C5_delete_if_exists (table None) () ()) as (_ & H & _).
    apply H. reflexivity. }
  split.
  { destruct (C5_delete_if_exists (table (Some notFound)) () ()) as (_ & _ & H & _).
    apply (H notFound); reflexivity. }
  split.
  { destruct (C5_delete_if_exists (table (Some (otherError "timeout"))) () ())
      as (_ & _ & _ & H). apply H; [reflexivity | discriminate]. }
  destruct (C5_delete_if_exists scripted () s0) as (H & _).
  rewrite H. reflexivity.
Defined.

(** ** The hash key arguments of [CreateTableIfNotExists] *)

Lemma call_set_hashKey fn v o :
  call fn (set_hashKey v o) =
  match asHashKey fn with
  | Some _ => call fn o
  | None => set_hashKey v (call fn o)
  end.
Proof. destruct fn; reflexivity. Qed.

(** A hash key set before the loop is lost once an option of the loop sets
    the hash key. *)
Lemma applyAll_hashKey_overwritten v : forall opts o k,
  lastOf asHashKey opts = Some k →
  applyAll opts (set_hashKey v o) = applyAll opts o.
Proof.
  induction opts as [|fn opts IH]; intros o k Hk; [discriminate|].
  rewrite !applyAll_cons, call_set_hashKey.
  rewrite lastOf_cons in Hk.
  destruct (asHashKey fn) as [k'|]; [reflexivity|].
  destruct (lastOf asHashKey opts) as [k''|]; [|discriminate].
  by apply (IH _ k'').
Qed.

Lemma makeCreateTableInput_hashKey_overwritten tableName n ty opts k :
  lastOf asHashKey opts = Some k →
  makeCreateTableInput tableName (WithHashKey n ty :: opts) =
  makeCreateTableInput tableName opts.
Proof.
  intros Hk. unfold makeCreateTableInput.
  rewrite !makeTableOptions_table, applyAll_cons.
  change (call (WithHashKey n ty) initialOptions)
    with (set_hashKey (Some {| attributeName := n; attributeType := ty |}) initialOptions).
  rewrite (applyAll_hashKey_overwritten _ _ _ k Hk). reflexivity.
Qed.

Section HashKeyArguments.

Context {Ctx St : Type}.
Implicit Types (t : Table Ctx St) (ctx : Ctx) (s : St).

(** C10. [CreateTableIfNotExists] hands the client the request rendered from
    the hash key arguments followed by the caller's options.  When the
    options hold a [WithHashKey], the last such option overwrites the
    arguments: the request is the one rendered from the options alone, its
    key schema and its attribute definitions start with the option's hash
    key, and the call behaves the same whatever the arguments are.  When
    the options hold none, the arguments give the hash key. *)
Theorem C10_hash_key_option_overwrites t ctx hashKeyName hashKeyType opts s :
  let sent :=
    makeCreateTableInput (tableName t) (WithHashKey hashKeyName hashKeyType :: opts) in
  CreateTableIfNotExists t ctx hashKeyName hashKeyType opts s =
    swallow ErrCodeResourceInUseException (CreateTableWithContext (api t) ctx sent s) ∧
  (forall k, lastOf asHashKey opts = Some k →
     sent = makeCreateTableInput (tableName t) opts ∧
     head (KeySchema sent) =
       Some {| kse_AttributeName := attributeName k; KeyType := KeyTypeHash |} ∧
     head (AttributeDefinitions sent) =
       Some {| AttributeName := attributeName k; AttributeType := attributeType k |} ∧
     (forall name' type',
        CreateTableIfNotExists t ctx name' type' opts s =
        CreateTableIfNotExists t ctx hashKeyName hashKeyType opts s)) ∧
  (lastOf asHashKey opts = None →
   head (KeySchema sent) =
     Some {| kse_AttributeName := hashKeyName; KeyType := KeyTypeHash |}).
Proof.
  intros sent. subst sent.
  split; [apply CreateTableIfNotExists_one_call|]. split.
  - intros k Hk. split; [by apply (makeCreateTableInput_hashKey_overwritten _ _ _ _ k)|].
    rewrite KeySchema_closed_form, AttributeDefinitions_closed_form.
    unfold keySchemaOf, tableKeyDefinitions. rewrite lastOf_cons, Hk.
    split; [reflexivity|]. split; [reflexivity|].
    intros name' type'. rewrite !CreateTableIfNotExists_one_call.
    rewrite !(makeCreateTableInput_hashKey_overwritten _ _ _ _ k Hk). reflexivity.
  - intros Hnone. rewrite KeySchema_closed_form.
    unfold keySchemaOf. rewrite lastOf_cons, Hnone. reflexivity.
Qed.

End HashKeyArguments.

(** C10 on a call with arguments ("id", S) and the option
    [WithHashKey "other" N]: the one request the collaborator receives has
    "other" as its hash key and does not mention "id". *)
Lemma C10_hash_key_option_witness :
  let scripted : Table unit scripted := New Scripted "blah" in
  let s0 := {| replies := []; received := [] |} in
  let opts := [WithHashKey "other" "N"] in
  makeCreateTableInput "blah" (WithHashKey "id" "S" :: opts) =
    makeCreateTableInput "blah" opts ∧
  received (CreateTableIfNotExists scripted () "id" "S" opts s0).2 =
    [CreateRequest (makeCreateTableInput "blah" opts)] ∧
  KeySchema (makeCreateTableInput "blah" opts) =
    [{| kse_AttributeName := "other"; KeyType := "HASH" |}] ∧
  head (KeySchema (makeCreateTableInput "blah" (WithHashKey "id" "S" :: []))) =
    Some {| kse_AttributeName := "id"; KeyType := "HASH" |}.
Proof.
  intros scripted s0 opts.
  destruct (C10_hash_key_option_overwrites scripted () "id" "S" opts s0)
    as (Hcall & Hover & _).
  destruct (Hover {| attributeName := "other"; attributeType := "N" |} eq_refl)
    as (Hsent & _).
  destruct (C10_hash_key_option_overwrites scripted () "id" "S" [] s0)
    as (_ & _ & Hargs).
  split; [exact Hsent|]. split; [rewrite Hcall; reflexivity|].
  split; [reflexivity | apply Hargs; reflexivity].
Defined.

(** * Further properties *)

(** ** [merge] as a function *)

Lemma dedupByName_sublist : forall l seen, dedupByName seen l `sublist_of` l.
Proof.
  induction l as [|c l IH]; intros seen; simpl; [constructor|].
  destruct (decide (AttributeName c ∈ seen)).
  - apply sublist_cons, IH.
  - apply sublist_skip, IH.
Qed.

Lemma dedupByName_all_seen : forall l seen,
  (forall d, d ∈ l → AttributeName d ∈ seen) → dedupByName seen l = [].
Proof.
  induction l as [|c l IH]; intros seen Hall; simpl; [reflexivity|].
  destruct (decide (AttributeName c ∈ seen)) as [Hin|Hout].
  - apply IH. intros d Hd. apply Hall. by right.
  - destruct Hout. apply Hall. by left.
Qed.

Lemma namesOf_merge definitions attrs :
  namesOf (merge definitions attrs) =
  namesOf definitions ∪ namesOf (toDefinition <$> attrs).
Proof.
  rewrite merge_spec, namesOf_app.
  pose proof (namesOf_dedupByName (toDefinition <$> attrs) (namesOf definitions)).
  names_solver.
Qed.

Lemma merge_app definitions attrs1 attrs2 :
  merge (merge definitions attrs1) attrs2 = merge definitions (attrs1 ++ attrs2).
Proof.
  transitivity (fold_left merge [attrs1; attrs2] definitions); [reflexivity|].
  rewrite fold_merge_spec, merge_spec. simpl. rewrite app_nil_r. reflexivity.
Qed.

Lemma merge_absorb definitions attrs :
  (forall a, a ∈ attrs → Name a ∈ AttributeName <$> definitions) →
  merge definitions attrs = definitions.
Proof.
  intros Hall. rewrite merge_spec, dedupByName_all_seen; [apply app_nil_r|].
  intros d Hd. apply list_elem_of_fmap in Hd as (a & -> & Ha).
  apply elem_of_namesOf, Hall, Ha.
Qed.

Lemma names_toDefinition (attrs : list attribute) :
  AttributeName <$> (toDefinition <$> attrs) = Name <$> attrs.
Proof. rewrite <- list_fmap_compose. reflexivity. Qed.

(** X1. [merge] never drops, reorders or rewrites the definitions it is
    given: they are the first entries of the result, as they were.  What
    follows them is a selection, in order, of the attributes to merge, so
    the result has at most one entry more per attribute. *)
Theorem X1_merge_keeps_definitions definitions attrs :
  take (List.length definitions) (merge definitions attrs) = definitions ∧
  drop (List.length definitions) (merge definitions attrs) `sublist_of` (toDefinition <$> attrs) ∧
  (List.length definitions ≤ List.length (merge definitions attrs))%nat ∧
  (List.length (merge definitions attrs) ≤ List.length definitions + List.length attrs)%nat.
Proof.
  rewrite merge_spec, take_app_length, drop_app_length, length_app.
  pose proof (dedupByName_sublist (toDefinition <$> attrs) (namesOf definitions)) as Hsub.
  pose proof (sublist_length _ _ Hsub) as Hlen. rewrite length_fmap in Hlen.
  repeat split; [exact Hsub | lia | lia].
Qed.

(** X2. Merging attribute lists one after the other is merging their
    concatenation: the result of [merge] depends on the order of the
    attributes only, not on how they are grouped into calls. *)
Theorem X2_merge_composes definitions :
  (forall attrs1 attrs2,
     merge (merge definitions attrs1) attrs2 = merge definitions (attrs1 ++ attrs2)) ∧
  (forall ls : list (list attribute),
     fold_left merge ls definitions = merge definitions (concat ls)).
Proof.
  split; [apply merge_app|].
  intros ls. rewrite fold_merge_spec, merge_spec. reflexivity.
Qed.

(** X3. [merge] adds nothing when every attribute name is already defined:
    merging the empty list, or merging the same attributes a second time,
    returns the definitions unchanged. *)
Theorem X3_merge_absorbs definitions attrs :
  merge definitions [] = definitions ∧
  merge (merge definitions attrs) attrs = merge definitions attrs ∧
  ((forall a, a ∈ attrs → Name a ∈ AttributeName <$> definitions) →
   merge definitions attrs = definitions).
Proof.
  split; [apply merge_absorb; intros a Ha; inversion Ha|].
  split; [|apply merge_absorb].
  apply merge_absorb. intros a Ha.
  apply elem_of_namesOf. rewrite namesOf_merge.
  apply elem_of_union_r, elem_of_namesOf.
  rewrite names_toDefinition. by apply list_elem_of_fmap_2.
Qed.

(** X3 on definitions that already hold both attribute names. *)
Lemma X3_merge_absorbs_witness :
  merge [{| AttributeName := "id"; AttributeType := "S" |};
         {| AttributeName := "range"; AttributeType := "N" |}]
        [{| Name := "range"; Type_ := "B" |}; {| Name := "id"; Type_ := "N" |}] =
  [{| AttributeName := "id"; AttributeType := "S" |};
   {| AttributeName := "range"; AttributeType := "N" |}].
Proof.
  apply X3_merge_absorbs. intros a Ha.
  apply elem_of_cons in Ha as [->|Ha]; [simpl; set_solver|].
  apply elem_of_cons in Ha as [->|Ha]; [simpl; set_solver | inversion Ha].
Defined.

(** X4. The names in the result of [merge] are those of the definitions
    together with those of the attributes, and the result has no repeated
    name exactly when the definitions it was given have none: [merge] never
    introduces a duplicate and never removes one. *)
Theorem X4_merge_names definitions attrs :
  (forall name,
     name ∈ AttributeName <$> merge definitions attrs ↔
     name ∈ AttributeName <$> definitions ∨ name ∈ Name <$> attrs) ∧
  (NoDup (AttributeName <$> merge definitions attrs) ↔
   NoDup (AttributeName <$> definitions)).
Proof.
  split.
  - intros name. rewrite <- !elem_of_namesOf, namesOf_merge, elem_of_union.
    rewrite !elem_of_namesOf, names_toDefinition. reflexivity.
  - rewrite merge_spec, fmap_app, NoDup_app. split; [by intros (Hd & _)|].
    intros Hd. split; [exact Hd|]. split; [|apply dedupByName_NoDup].
    intros x Hx Hx'. apply list_elem_of_fmap in Hx' as (d & -> & Hd').
    apply dedupByName_elem in Hd' as (_ & Hs & _).
    apply Hs, elem_of_namesOf, Hx.
Qed.

(** X4 on the two directions: a duplicate among the definitions stays, and
    duplicates among the attributes are not added. *)
Lemma X4_merge_names_witness :
  ¬ NoDup (AttributeName <$>
             merge [{| AttributeName := "a"; AttributeType := "S" |};
                    {| AttributeName := "a"; AttributeType := "N" |}]
                   [{| Name := "b"; Type_ := "S" |}]) ∧
  NoDup (AttributeName <$>
           merge [{| AttributeName := "a"; AttributeType := "S" |}]
                 [{| Name := "b"; Type_ := "S" |}; {| Name := "b"; Type_ := "N" |};
                  {| Name := "a"; Type_ := "N" |}]).
Proof.
  split.
  - intros Hnd. apply X4_merge_names in Hnd.
    apply NoDup_cons in Hnd as [Hnot _]. apply Hnot. left.
  - apply X4_merge_names. repeat constructor. set_solver.
Defined.

(** ** The request in closed form *)

Lemma resolvedBillingMode_spec tableName opts :
  BillingMode (makeCreateTableInput tableName opts) = resolvedBillingMode opts ∧
  billingMode (makeTableOptions (TableOptions opts)) = resolvedBillingMode opts.
Proof.
  split; [apply BillingMode_closed_form|].
  rewrite makeTableOptions_table. apply applyAll_billingMode.
Qed.

Lemma globalIndexFn_render n p io bm :
  globalIndexFn n p io bm = (renderGlobalIndex bm (n, p, io), declaredAttrs (n, p, io)).
Proof.
  rewrite (surjective_pairing (globalIndexFn n p io bm)).
  rewrite globalIndexFn_closed_form, globalIndexFn_attributes. reflexivity.
Qed.

Lemma localIndexFn_render n p io bm :
  localIndexFn n p io bm = (renderLocalIndex (n, p, io), declaredAttrs (n, p, io)).
Proof.
  rewrite (surjective_pairing (localIndexFn n p io bm)).
  rewrite localIndexFn_closed_form, localIndexFn_attributes. reflexivity.
Qed.

Lemma GlobalSecondaryIndexes_render tableName opts :
  GlobalSecondaryIndexes (makeCreateTableInput tableName opts) =
  renderGlobalIndex (resolvedBillingMode opts) <$> omap asGlobalIndex opts.
Proof.
  rewrite GlobalSecondaryIndexes_closed_form.
  destruct (resolvedBillingMode_spec tableName opts) as [_ ->].
  apply list_fmap_ext. intros i [[n p] io] _. cbn [fst snd].
  rewrite globalIndexFn_render. reflexivity.
Qed.

Lemma LocalSecondaryIndexes_render tableName opts :
  LocalSecondaryIndexes (makeCreateTableInput tableName opts) =
  renderLocalIndex <$> omap asLocalIndex opts.
Proof.
  rewrite LocalSecondaryIndexes_closed_form.
  apply list_fmap_ext. intros i [[n p] io] _. cbn [fst snd].
  rewrite localIndexFn_render. reflexivity.
Qed.

Lemma ProvisionedThroughput_render tableName opts :
  ProvisionedThroughput_ (makeCreateTableInput tableName opts) =
  renderThroughput (resolvedBillingMode opts) opts.
Proof.
  rewrite ProvisionedThroughput_closed_form.
  destruct (resolvedBillingMode_spec tableName opts) as [-> _]. reflexivity.
Qed.

Lemma StreamSpecification_render tableName opts :
  StreamSpecification_ (makeCreateTableInput tableName opts) = renderStream opts.
Proof.
  rewrite makeCreateTableInput_shape. cbv zeta. cbn [StreamSpecification_].
  rewrite makeTableOptions_table, applyAll_streamViewType. unfold renderStream.
  destruct (lastOf asStreamViewType opts) as [v|]; reflexivity.
Qed.

Lemma TableName_render tableName opts :
  TableName (makeCreateTableInput tableName opts) = tableName.
Proof. rewrite makeCreateTableInput_shape. reflexivity. Qed.

Lemma makeCreateTableInput_render tableName opts :
  makeCreateTableInput tableName opts = renderRequest tableName opts.
Proof.
  pose proof (AttributeDefinitions_closed_form tableName opts) as H1.
  pose proof (proj1 (resolvedBillingMode_spec tableName opts)) as H2.
  pose proof (GlobalSecondaryIndexes_render tableName opts) as H3.
  pose proof (KeySchema_closed_form tableName opts) as H4.
  pose proof (LocalSecondaryIndexes_render tableName opts) as H5.
  pose proof (ProvisionedThroughput_render tableName opts) as H6.
  pose proof (StreamSpecification_render tableName opts) as H7.
  pose proof (TableName_render tableName opts) as H8.
  destruct (makeCreateTableInput tableName opts). simpl in *.
  unfold renderRequest. congruence.
Qed.

Lemma keySchema_names opts :
  kse_AttributeName <$> keySchemaOf opts = AttributeName <$> tableKeyDefinitions opts.
Proof.
  unfold keySchemaOf, tableKeyDefinitions.
  destruct (lastOf asHashKey opts), (lastOf asRangeKey opts); reflexivity.
Qed.

Lemma keySchema_length opts :
  List.length (keySchemaOf opts) = List.length (tableKeyDefinitions opts) ∧
  (List.length (keySchemaOf opts) ≤ 2)%nat.
Proof.
  unfold keySchemaOf, tableKeyDefinitions.
  destruct (lastOf asHashKey opts), (lastOf asRangeKey opts); simpl; lia.
Qed.

(** Every attribute an index declares has its name among the attribute
    definitions. *)
Lemma indexAttributes_defined tableName opts a :
  a ∈ indexAttributes opts →
  Name a ∈ AttributeName <$> AttributeDefinitions (makeCreateTableInput tableName opts).
Proof.
  intros Ha. rewrite AttributeDefinitions_closed_form, fmap_app, elem_of_app.
  assert (toDefinition a ∈ toDefinition <$> indexAttributes opts) as Hd
    by (by apply list_elem_of_fmap_2).
  destruct (dedupByName_covers _ (namesOf (tableKeyDefinitions opts)) _ Hd) as [Hk|Hk].
  - left. by apply elem_of_namesOf.
  - by right.
Qed.

Lemma declaredAttrs_global opts d a :
  d ∈ omap asGlobalIndex opts → a ∈ declaredAttrs d → a ∈ indexAttributes opts.
Proof.
  intros Hd Ha. unfold indexAttributes. apply elem_of_app. left.
  apply list_elem_of_In, in_concat. exists (declaredAttrs d).
  split; apply list_elem_of_In; [by apply list_elem_of_fmap_2 | done].
Qed.

Lemma declaredAttrs_local opts d a :
  d ∈ omap asLocalIndex opts → a ∈ declaredAttrs d → a ∈ indexAttributes opts.
Proof.
  intros Hd Ha. unfold indexAttributes. apply elem_of_app. right.
  apply list_elem_of_In, in_concat. exists (declaredAttrs d).
  split; apply list_elem_of_In; [by apply list_elem_of_fmap_2 | done].
Qed.

(** X5. The request carries a stream specification exactly when the last
    [WithStreamSpecification] option has a non-empty view type; it is then
    enabled and has that view type.  A later [WithStreamSpecification("")]
    therefore withdraws an earlier stream declaration. *)
Theorem X5_stream_specification tableName opts :
  let input := makeCreateTableInput tableName opts in
  (forall spec,
     StreamSpecification_ input = Some spec ↔
     spec = {| StreamEnabled := true; StreamViewType := StreamViewType spec |} ∧
     StreamViewType spec ≠ "" ∧
     lastOf asStreamViewType opts = Some (StreamViewType spec)) ∧
  (StreamSpecification_ input = None ↔
   lastOf asStreamViewType opts = None ∨ lastOf asStreamViewType opts = Some "") ∧
  (forall v more,
     StreamSpecification_
       (makeCreateTableInput tableName (opts ++ WithStreamSpecification v :: more)) =
     StreamSpecification_
       (makeCreateTableInput tableName (WithStreamSpecification v :: more))) ∧
  StreamSpecification_
    (makeCreateTableInput tableName (opts ++ [WithStreamSpecification ""])) = None.
Proof.
  intros input. subst input. rewrite !StreamSpecification_render. unfold renderStream.
  split; [|split; [|split]].
  - intros spec. destruct (lastOf asStreamViewType opts) as [v|].
    + destruct (decide (v = "")) as [->|Hne].
      * split; [discriminate|]. intros (_ & Hne & Heq). congruence.
      * split.
        -- intros [= <-]. simpl. done.
        -- intros (-> & _ & [= ->]). reflexivity.
    + split; [discriminate | intros (_ & _ & ?); discriminate].
  - destruct (lastOf asStreamViewType opts) as [v|].
    + destruct (decide (v = "")) as [->|Hne].
      * split; [by right | done].
      * split; [discriminate | intros [?|[= ?]]; [discriminate | congruence]].
    + split; [by left | done].
  - intros v more. rewrite !StreamSpecification_render. unfold renderStream, lastOf.
    rewrite omap_app, last_app.
    change (omap asStreamViewType (WithStreamSpecification v :: more))
      with (v :: omap asStreamViewType more).
    rewrite last_cons. destruct (last (omap asStreamViewType more)); reflexivity.
  - unfold lastOf. rewrite omap_app, last_app. reflexivity.
Qed.

(** X5 on a stream declared and then withdrawn, and on the request of the
    "stream specification" test. *)
Lemma X5_stream_specification_witness :
  StreamSpecification_
    (makeCreateTableInput "blah"
       [WithStreamSpecification "KEYS_ONLY"; WithStreamSpecification ""]) = None ∧
  StreamSpecification_
    (makeCreateTableInput "blah" [WithStreamSpecification StreamViewTypeKeysOnly]) =
    Some {| StreamEnabled := true; StreamViewType := "KEYS_ONLY" |}.
Proof.
  split.
  - apply X5_stream_specification. right. reflexivity.
  - apply X5_stream_specification. repeat split. discriminate.
Defined.

(** X6. The table's key schema has at most two entries, the HASH entry
    before the RANGE entry, each present exactly when an option of its kind
    was given (a request rendered without [WithHashKey] has no HASH entry);
    and the key schema names, in order, the first attribute definitions of
    the request, so every table key has its attribute definition. *)
Theorem X6_table_key_schema tableName opts :
  let input := makeCreateTableInput tableName opts in
  KeySchema input =
    match lastOf asHashKey opts with
    | Some h => [{| kse_AttributeName := attributeName h; KeyType := KeyTypeHash |}]
    | None => []
    end ++
    match lastOf asRangeKey opts with
    | Some r => [{| kse_AttributeName := attributeName r; KeyType := KeyTypeRange |}]
    | None => []
    end ∧
  (List.length (KeySchema input) ≤ 2)%nat ∧
  kse_AttributeName <$> KeySchema input =
    AttributeName <$> take (List.length (KeySchema input)) (AttributeDefinitions input) ∧
  Forall
    (fun k => kse_AttributeName k ∈ AttributeName <$> AttributeDefinitions input)
    (KeySchema input).
Proof.
  intros input. subst input.
  rewrite KeySchema_closed_form, AttributeDefinitions_closed_form.
  destruct (keySchema_length opts) as [Hlen Hle].
  assert (kse_AttributeName <$> keySchemaOf opts =
          AttributeName <$>
            take (List.length (keySchemaOf opts))
              (tableKeyDefinitions opts ++
               dedupByName (namesOf (tableKeyDefinitions opts))
                 (toDefinition <$> indexAttributes opts))) as Hnames.
  { rewrite Hlen, take_app_length. apply keySchema_names. }
  split; [|split; [exact Hle | split; [exact Hnames|]]].
  - unfold keySchemaOf.
    destruct (lastOf asHashKey opts), (lastOf asRangeKey opts); reflexivity.
  - apply Forall_forall. intros k Hk.
    apply (list_elem_of_fmap_2 kse_AttributeName) in Hk.
    rewrite keySchema_names in Hk. rewrite fmap_app. apply elem_of_app. by left.
Qed.

(** X7. Every non-key attribute a rendered index projects, global or local,
    has an attribute definition in the request. *)
Theorem X7_projected_attributes_defined tableName opts :
  let input := makeCreateTableInput tableName opts in
  Forall
    (fun g =>
       Forall (fun name => name ∈ AttributeName <$> AttributeDefinitions input)
              (NonKeyAttributes (gsi_Projection g)))
    (GlobalSecondaryIndexes input) ∧
  Forall
    (fun l =>
       Forall (fun name => name ∈ AttributeName <$> AttributeDefinitions input)
              (NonKeyAttributes (lsi_Projection l)))
    (LocalSecondaryIndexes input).
Proof.
  intros input. subst input.
  rewrite GlobalSecondaryIndexes_render, LocalSecondaryIndexes_render.
  split; apply Forall_fmap, Forall_forall; intros d Hd; apply Forall_forall;
    intros name Hname; simpl in Hname;
    apply list_elem_of_fmap in Hname as (a & -> & Ha);
    apply indexAttributes_defined.
  - by apply (declaredAttrs_global opts d).
  - by apply (declaredAttrs_local opts d).
Qed.

(** X8. Throughput is declared everywhere or nowhere: every rendered global
    index carries a provisioned throughput exactly when the table does, that
    is exactly when the resolved billing mode is not pay-per-request. *)
Theorem X8_throughput_everywhere_or_nowhere tableName opts :
  let input := makeCreateTableInput tableName opts in
  Forall
    (fun g =>
       (is_Some (gsi_ProvisionedThroughput g) ↔ is_Some (ProvisionedThroughput_ input)) ∧
       (gsi_ProvisionedThroughput g = None ↔
        BillingMode input = BillingModePayPerRequest))
    (GlobalSecondaryIndexes input).
Proof.
  intros input. subst input.
  rewrite GlobalSecondaryIndexes_render, ProvisionedThroughput_render.
  destruct (resolvedBillingMode_spec tableName opts) as [-> _].
  apply Forall_fmap, Forall_forall. intros d _. simpl. unfold renderThroughput.
  destruct (decide (resolvedBillingMode opts = BillingModePayPerRequest)) as [Heq|Hne].
  - split; [split; intros [x Hx]; discriminate | done].
  - split; [split; intros _; eexists; reflexivity | split; [discriminate | done]].
Qed.

(** X8 on a pay-per-request table with a global index that declares its own
    capacity: neither the table nor the index carries a throughput. *)
Lemma X8_throughput_witness :
  let input :=
    makeCreateTableInput "blah"
      [WithBillingMode BillingModePayPerRequest;
       WithGlobalSecondaryIndex "g" "ALL" [WithHashKey "gk" "S"; WithReadCapacity 10]] in
  ProvisionedThroughput_ input = None ∧
  Forall (fun g => gsi_ProvisionedThroughput g = None) (GlobalSecondaryIndexes input) ∧
  List.length (GlobalSecondaryIndexes input) = 1%nat.
Proof.
  intros input. split; [reflexivity|]. split; [|reflexivity].
  eapply Forall_impl.
  - apply (X8_throughput_everywhere_or_nowhere "blah"
      [WithBillingMode BillingModePayPerRequest;
       WithGlobalSecondaryIndex "g" "ALL" [WithHashKey "gk" "S"; WithReadCapacity 10]]).
  - intros g [_ Hnone]. apply Hnone. reflexivity.
Defined.

(** X9. [makeCreateTableInput] computes the two-phase rendering: the request
    is determined field by field by the last option of each scalar kind and
    by the index declarations in order, each index being rendered from its
    own option list and the table's resolved billing mode.  In particular
    there is one index entry per declaration, in declaration order, and
    index names are not de-duplicated. *)
Theorem X9_two_phase_rendering tableName opts :
  makeCreateTableInput tableName opts = renderRequest tableName opts ∧
  gsi_IndexName <$> GlobalSecondaryIndexes (makeCreateTableInput tableName opts) =
    (fun d : indexDecl => d.1.1) <$> omap asGlobalIndex opts ∧
  lsi_IndexName <$> LocalSecondaryIndexes (makeCreateTableInput tableName opts) =
    (fun d : indexDecl => d.1.1) <$> omap asLocalIndex opts.
Proof.
  split; [apply makeCreateTableInput_render|].
  rewrite GlobalSecondaryIndexes_render, LocalSecondaryIndexes_render.
  rewrite <- !list_fmap_compose. split; reflexivity.
Qed.

Lemma renderRequest_readings tableName opts opts' :
  readings opts = readings opts' →
  renderRequest tableName opts = renderRequest tableName opts'.
Proof.
  unfold readings. intros [= Hbm Hhk Hrk Hrc Hwc Hsv Hgi Hli].
  unfold renderRequest, resolvedBillingMode, renderThroughput, capacityOf, renderStream,
    keySchemaOf, tableKeyDefinitions, indexAttributes.
  rewrite Hbm, Hhk, Hrk, Hrc, Hwc, Hsv, Hgi, Hli. reflexivity.
Qed.

(** X10. The request depends on the option list only through what the
    rendering reads from it: two option lists with the same last option of
    every scalar kind and the same index declarations in the same order
    render the same request.  The relative order of options of different
    kinds is therefore immaterial. *)
Theorem X10_rendering_depends_on_readings tableName opts opts' :
  readings opts = readings opts' →
  makeCreateTableInput tableName opts = makeCreateTableInput tableName opts'.
Proof.
  intros Hr. rewrite !makeCreateTableInput_render. by apply renderRequest_readings.
Qed.

(** X10 on two orders of the same options, the second with an overwritten
    capacity option in front. *)
Lemma X10_rendering_witness :
  makeCreateTableInput "blah"
    [WithHashKey "id" "S"; WithRangeKey "range" "N"; WithReadCapacity 5;
     WithGlobalSecondaryIndex "g" "ALL" [WithHashKey "gk" "S"];
     WithBillingMode "PROVISIONED"] =
  makeCreateTableInput "blah"
    [WithReadCapacity 9; WithBillingMode "PROVISIONED";
     WithGlobalSecondaryIndex "g" "ALL" [WithHashKey "gk" "S"];
     WithReadCapacity 5; WithRangeKey "range" "N"; WithHashKey "id" "S"].
Proof. apply X10_rendering_depends_on_readings. reflexivity. Defined.

(** ** What an index reads from its own option list *)

Lemma renderGlobalIndex_readings n p io io' bm :
  readIndex io = readIndex io' →
  renderGlobalIndex bm (n, p, io) = renderGlobalIndex bm (n, p, io') ∧
  declaredAttrs (n, p, io) = declaredAttrs (n, p, io').
Proof.
  unfold readIndex. intros [= Hhk Hrk Hrc Hwc Hat].
  unfold renderGlobalIndex, renderThroughput, capacityOf, keySchemaOf, declaredAttrs.
  simpl. rewrite Hhk, Hrk, Hrc, Hwc, Hat. done.
Qed.

Lemma renderLocalIndex_readings n p io io' :
  indexHashKey (readIndex io) = indexHashKey (readIndex io') →
  indexRangeKey (readIndex io) = indexRangeKey (readIndex io') →
  indexAttrs (readIndex io) = indexAttrs (readIndex io') →
  renderLocalIndex (n, p, io) = renderLocalIndex (n, p, io') ∧
  declaredAttrs (n, p, io) = declaredAttrs (n, p, io').
Proof.
  simpl. intros Hhk Hrk Hat.
  unfold renderLocalIndex, keySchemaOf, declaredAttrs.
  simpl. rewrite Hhk, Hrk, Hat. done.
Qed.

(** X11. A rendered index depends on its own option list only through the
    last hash key, the last range key, the attributes in order and, for a
    global index, the last read and write capacity; on the table it depends
    only through whether the billing mode is pay-per-request.  A local index
    ignores capacity options and the billing mode altogether. *)
Theorem X11_index_depends_on_readings n p io io' bm bm' :
  (readIndex io = readIndex io' →
   globalIndexFn n p io bm = globalIndexFn n p io' bm) ∧
  ((bm = BillingModePayPerRequest ↔ bm' = BillingModePayPerRequest) →
   globalIndexFn n p io bm = globalIndexFn n p io bm') ∧
  (indexHashKey (readIndex io) = indexHashKey (readIndex io') →
   indexRangeKey (readIndex io) = indexRangeKey (readIndex io') →
   indexAttrs (readIndex io) = indexAttrs (readIndex io') →
   localIndexFn n p io bm = localIndexFn n p io' bm') ∧
  localIndexFn n p (withoutCapacity io) bm = localIndexFn n p io bm'.
Proof.
  rewrite !globalIndexFn_render, !localIndexFn_render.
  split; [|split; [|split]].
  - intros Hr. destruct (renderGlobalIndex_readings n p io io' bm Hr) as [-> ->]. done.
  - intros Hiff. f_equal. unfold renderGlobalIndex, renderThroughput. f_equal.
    destruct (decide (bm = BillingModePayPerRequest)) as [H|H],
             (decide (bm' = BillingModePayPerRequest)) as [H'|H']; try reflexivity.
    + destruct H'. by apply Hiff.
    + destruct H. by apply Hiff.
  - intros Hhk Hrk Hat.
    destruct (renderLocalIndex_readings n p io io' Hhk Hrk Hat) as [-> ->]. done.
  - assert (forall {A} (sel : tableIndexFunc -> option A),
              (forall fn, isCapacity fn = true → sel fn = None) →
              lastOf sel (withoutCapacity io) = lastOf sel io) as Hlast.
    { intros A sel Hsel. unfold lastOf. by rewrite omap_withoutCapacity. }
    destruct (renderLocalIndex_readings n p (withoutCapacity io) io) as [-> ->];
      [| | |done]; simpl.
    + apply Hlast. intros fn. destruct fn; simpl; congruence.
    + apply Hlast. intros fn. destruct fn; simpl; congruence.
    + apply omap_withoutCapacity. intros fn. destruct fn; simpl; congruence.
Qed.

(** X11 on a global index whose options are reordered with an overwritten
    capacity, and on a local index with and without capacity options. *)
Lemma X11_index_readings_witness :
  globalIndexFn "g" "ALL" [WithReadCapacity 1; WithHashKey "gk" "S"; WithReadCapacity 7]
    "PROVISIONED" =
  globalIndexFn "g" "ALL" [WithReadCapacity 7; WithHashKey "gk" "S"] "PROVISIONED" ∧
  globalIndexFn "g" "ALL" [WithHashKey "gk" "S"] "PROVISIONED" =
  globalIndexFn "g" "ALL" [WithHashKey "gk" "S"] "" ∧
  localIndexFn "l" "ALL" [WithHashKey "id" "S"; WithAttr "x" "S"] "PROVISIONED" =
  localIndexFn "l" "ALL" [WithReadCapacity 7; WithHashKey "id" "S"; WithAttr "x" "S"]
    "PAY_PER_REQUEST".
Proof.
  split; [|split].
  - apply (X11_index_depends_on_readings "g" "ALL" _ _ "PROVISIONED" "PROVISIONED").
    reflexivity.
  - apply (X11_index_depends_on_readings "g" "ALL" [WithHashKey "gk" "S"]
             [WithHashKey "gk" "S"] "PROVISIONED" "").
    split; discriminate.
  - apply (X11_index_depends_on_readings "l" "ALL" _ _ "PROVISIONED" "PAY_PER_REQUEST");
      reflexivity.
Defined.

(** ** What the lifecycle calls return *)

Section LifecycleResults.

Context {Ctx St : Type}.
Implicit Types (t : Table Ctx St) (ctx : Ctx) (s : St).

Lemma swallow_Some_iff code e (reply : option error * St) :
  (swallow code reply).1 = Some e ↔ reply.1 = Some e ∧ Code e ≠ Some code.
Proof.
  unfold swallow. destruct reply.1 as [e'|]; [|split; [discriminate | intros [? _]; discriminate]].
  destruct (isAwserrWithCode e' code) eqn:Hc; simpl.
  - apply isAwserrWithCode_true in Hc. split; [discriminate|]. intros [[= ->] Hne]. done.
  - apply isAwserrWithCode_false in Hc. split.
    + intros [= ->]. done.
    + intros [[= ->] _]. done.
Qed.

Lemma swallow_None_iff code (reply : option error * St) :
  (swallow code reply).1 = None ↔
  reply.1 = None ∨ exists e, reply.1 = Some e ∧ Code e = Some code.
Proof.
  unfold swallow. destruct reply.1 as [e'|]; [|split; [by left | done]].
  destruct (isAwserrWithCode e' code) eqn:Hc; simpl.
  - apply isAwserrWithCode_true in Hc. split; [|done]. intros _. right. by exists e'.
  - apply isAwserrWithCode_false in Hc. split; [discriminate|].
    intros [?|(e & [= ->] & He)]; [discriminate | done].
Qed.

(** X12. [CreateTableIfNotExists] returns an error only when the client
    returned that very error and its code is not "ResourceInUseException",
    and returns nil only when the client succeeded or reported that code.
    It never returns an error carrying the code "ResourceInUseException",
    and an error that does not implement [awserr.Error] is always passed
    on. *)
Theorem X12_create_result_characterised t ctx hashKeyName hashKeyType opts s :
  let reply :=
    CreateTableWithContext (api t) ctx
      (makeCreateTableInput (tableName t) (WithHashKey hashKeyName hashKeyType :: opts)) s in
  let result := CreateTableIfNotExists t ctx hashKeyName hashKeyType opts s in
  (forall e, result.1 = Some e ↔
             reply.1 = Some e ∧ Code e ≠ Some ErrCodeResourceInUseException) ∧
  (result.1 = None ↔
   reply.1 = None ∨
   exists e, reply.1 = Some e ∧ Code e = Some ErrCodeResourceInUseException) ∧
  (forall e, result.1 = Some e → Code e ≠ Some ErrCodeResourceInUseException) ∧
  (forall message, reply.1 = Some (otherError message) →
                   result.1 = Some (otherError message)).
Proof.
  intros reply result. subst result.
  rewrite CreateTableIfNotExists_one_call. fold reply.
  split; [intros e; apply swallow_Some_iff|]. split; [apply swallow_None_iff|].
  split.
  - intros e He. by apply swallow_Some_iff in He as [_ Hne].
  - intros message Hm. apply swallow_Some_iff. split; [exact Hm | discriminate].
Qed.

(** X13. [DeleteTableIfExists] returns an error only when the client
    returned that very error and its code is not
    "ResourceNotFoundException", and returns nil only when the client
    succeeded or reported that code.  It never returns an error carrying the
    code "ResourceNotFoundException", and an error that does not implement
    [awserr.Error] is always passed on. *)
Theorem X13_delete_result_characterised t ctx s :
  let reply :=
    DeleteTableWithContext (api t) ctx {| del_TableName := tableName t |} s in
  let result := DeleteTableIfExists t ctx s in
  (forall e, result.1 = Some e ↔
             reply.1 = Some e ∧ Code e ≠ Some ErrCodeResourceNotFoundException) ∧
  (result.1 = None ↔
   reply.1 = None ∨
   exists e, reply.1 = Some e ∧ Code e = Some ErrCodeResourceNotFoundException) ∧
  (forall e, result.1 = Some e → Code e ≠ Some ErrCodeResourceNotFoundException) ∧
  (forall message, reply.1 = Some (otherError message) →
                   result.1 = Some (otherError message)).
Proof.
  intros reply result. subst result.
  rewrite DeleteTableIfExists_one_call. fold reply.
  split; [intros e; apply swallow_Some_iff|]. split; [apply swallow_None_iff|].
  split.
  - intros e He. by apply swallow_Some_iff in He as [_ Hne].
  - intros message Hm. apply swallow_Some_iff. split; [exact Hm | discriminate].
Qed.

(** X14. Deleting twice: when the collaborator accepts the first of two
    consecutive [DeleteTableIfExists] calls (or reports that the table does
    not exist) and reports on the second that the table does not exist,
    both calls return nil, and the collaborator has been called exactly
    twice, each time with the bound table name. *)
Theorem X14_delete_twice t ctx s :
  let input := {| del_TableName := tableName t |} in
  let reply1 := DeleteTableWithContext (api t) ctx input s in
  let reply2 := DeleteTableWithContext (api t) ctx input reply1.2 in
  let result1 := DeleteTableIfExists t ctx s in
  let result2 := DeleteTableIfExists t ctx result1.2 in
  result2.2 = reply2.2 ∧
  (reply1.1 = None ∨
     (exists e1, reply1.1 = Some e1 ∧ Code e1 = Some ErrCodeResourceNotFoundException) →
   (exists e2, reply2.1 = Some e2 ∧ Code e2 = Some ErrCodeResourceNotFoundException) →
   result1.1 = None ∧ result2.1 = None).
Proof.
  intros input reply1 reply2 result1 result2. subst result1 result2.
  rewrite !DeleteTableIfExists_one_call, !swallow_state. fold input. fold reply1.
  split; [reflexivity|].
  intros H1 H2. split; apply swallow_None_iff; [exact H1 | by right].
Qed.

(** X15. Every request [CreateTableIfNotExists] hands to the client names
    the bound table and has a hash key: its key schema starts with a HASH
    entry and its attribute definitions start with the definition of that
    key, which is the last [WithHashKey] of the options or else the hash
    key arguments. *)
Theorem X15_create_request_has_hash_key t ctx hashKeyName hashKeyType opts s :
  let sent :=
    makeCreateTableInput (tableName t) (WithHashKey hashKeyName hashKeyType :: opts) in
  let k :=
    default {| attributeName := hashKeyName; attributeType := hashKeyType |}
            (lastOf asHashKey opts) in
  CreateTableIfNotExists t ctx hashKeyName hashKeyType opts s =
    swallow ErrCodeResourceInUseException (CreateTableWithContext (api t) ctx sent s) ∧
  TableName sent = tableName t ∧
  head (KeySchema sent) =
    Some {| kse_AttributeName := attributeName k; KeyType := KeyTypeHash |} ∧
  head (AttributeDefinitions sent) =
    Some {| AttributeName := attributeName k; AttributeType := attributeType k |}.
Proof.
  intros sent k. subst sent k.
  split; [apply CreateTableIfNotExists_one_call|].
  rewrite TableName_render, KeySchema_closed_form, AttributeDefinitions_closed_form.
  unfold keySchemaOf, tableKeyDefinitions. rewrite lastOf_cons.
  destruct (lastOf asHashKey opts); repeat split; reflexivity.
Qed.

End LifecycleResults.

(** X12 on the mocks of [create_test.go], X13 on those of [table_test.go]:
    a reply with the other operation's code is passed on. *)
Lemma X12_create_result_witness :
  let notFound := awserrNew ErrCodeResourceNotFoundException "boom" in
  let table (err : option error) : Table unit unit := New (Mock err) "blah" in
  (CreateTableIfNotExists (table (Some notFound)) () "id" "S" [] ()).1 = Some notFound ∧
  (CreateTableIfNotExists (table None) () "id" "S" [] ()).1 = None.
Proof.
  intros notFound table. split.
  - apply (X12_create_result_characterised (table (Some notFound)) () "id" "S" [] ()).
    split; [reflexivity | discriminate].
  - apply (X12_create_result_characterised (table None) () "id" "S" [] ()).
    left. reflexivity.
Defined.

Lemma X13_delete_result_witness :
  let inUse := awserrNew ErrCodeResourceInUseException "boom" in
  let table (err : option error) : Table unit unit := New (Mock err) "blah" in
  (DeleteTableIfExists (table (Some inUse)) () ()).1 = Some inUse ∧
  (DeleteTableIfExists (table None) () ()).1 = None.
Proof.
  intros inUse table. split.
  - apply (X13_delete_result_characterised (table (Some inUse)) () ()).
    split; [reflexivity | discriminate].
  - apply (X13_delete_result_characterised (table None) () ()).
    left. reflexivity.
Defined.

(** X14 on a collaborator that deletes the table on the first call and
    reports it missing on the second. *)
Lemma X14_delete_twice_witness :
  let notFound := awserrNew ErrCodeResourceNotFoundException "boom" in
  let scripted : Table unit scripted := New Scripted "blah" in
  let s0 := {| replies := [None; Some notFound]; received := [] |} in
  (DeleteTableIfExists scripted () s0).1 = None ∧
  (DeleteTableIfExists scripted () (DeleteTableIfExists scripted () s0).2).1 = None ∧
  received (DeleteTableIfExists scripted () (DeleteTableIfExists scripted () s0).2).2 =
    [DeleteRequest {| del_TableName := "blah" |};
     DeleteRequest {| del_TableName := "blah" |}].
Proof.
  intros notFound scripted s0.
  destruct (X14_delete_twice scripted () s0) as [Hstate Hnil].
  destruct Hnil as [H1 H2];
    [left; reflexivity | exists notFound; split; reflexivity |].
  split; [exact H1|]. split; [exact H2|]. rewrite Hstate. reflexivity.
Defined.

(** ** What the attribute definitions hold, without any assumption *)

(** X16. For every option list, the table's key definitions head the
    attribute definitions with their own types, whatever the indexes
    declare; the entries after them have pairwise different names, none of
    which is a table key name; and a name is defined exactly when it is the
    name of a table key or of an attribute declared with [WithAttr] in some
    index, so nothing undeclared is defined and the keys of an index are
    defined only when they are declared in one of these two ways. *)
Theorem X16_attribute_definitions_invariant tableName opts :
  let defs := AttributeDefinitions (makeCreateTableInput tableName opts) in
  let keys := tableKeyDefinitions opts in
  take (List.length keys) defs = keys ∧
  NoDup (AttributeName <$> drop (List.length keys) defs) ∧
  Forall (fun d => AttributeName d ∉ AttributeName <$> keys) (drop (List.length keys) defs) ∧
  Forall (fun d => d ∈ candidates opts) defs ∧
  (forall name,
     name ∈ AttributeName <$> defs ↔
     name ∈ AttributeName <$> keys ∨ name ∈ Name <$> indexAttributes opts).
Proof.
  intros defs keys. subst defs keys. rewrite AttributeDefinitions_closed_form.
  rewrite take_app_length, drop_app_length.
  split; [reflexivity|]. split; [apply dedupByName_NoDup|]. split; [|split].
  - apply Forall_forall. intros d Hd Hk.
    apply dedupByName_elem in Hd as (_ & Hs & _). apply Hs, elem_of_namesOf, Hk.
  - apply Forall_forall. intros d Hd. unfold candidates.
    apply elem_of_app in Hd as [Hd|Hd]; apply elem_of_app; [by left | right].
    by apply dedupByName_elem in Hd as (Hd & _).
  - intros name. rewrite <- (names_toDefinition (indexAttributes opts)).
    rewrite <- !elem_of_namesOf, namesOf_app, elem_of_union.
    pose proof (namesOf_dedupByName (toDefinition <$> indexAttributes opts)
                  (namesOf (tableKeyDefinitions opts))) as Hn.
    rewrite set_eq in Hn. specialize (Hn name). rewrite !elem_of_union in Hn.
    tauto.
Qed.

(** X16 on a global index with its own hash key "gk" and two declared
    attributes, one of them named like the table's hash key: "x" is defined,
    "gk" is not. *)
Lemma X16_attribute_definitions_witness :
  let opts :=
    [WithHashKey "id" "S";
     WithGlobalSecondaryIndex "g" "ALL"
       [WithHashKey "gk" "S"; WithAttr "id" "B"; WithAttr "x" "S"]] in
  let defs := AttributeDefinitions (makeCreateTableInput "blah" opts) in
  "x" ∈ AttributeName <$> defs ∧ "gk" ∉ AttributeName <$> defs.
Proof.
  intros opts defs.
  destruct (X16_attribute_definitions_invariant "blah" opts) as (_ & _ & _ & _ & Hiff).
  fold defs in Hiff. split.
  - apply Hiff. right. vm_compute. set_solver.
  - intros Hgk. apply Hiff in Hgk as [Hgk|Hgk]; vm_compute in Hgk; set_solver.
Defined.
